(** * CrowdGuard crowd analytics: a shallow embedding of
    [ml-module/analytics/crowd_analyzer.py] and [ml-module/config.py].

    Python [float] is IEEE-754 binary64, so every float of the program is a
    primitive [float] of the kernel, specified bit for bit by [SpecFloat].
    Python [int] is unbounded and is [Z].  numpy arrays of person centers are
    lists of integer pairs: the detector builds each center with [int(...)]
    (detection/detector.py, [detect_people]). *)

From Stdlib Require Import ZArith List Bool Lia String Floats Sorted.
From stdpp Require Import base list option.
Import ListNotations.
Set Warnings "-inexact-float".
Open Scope Z_scope.

(** ** Python and numpy arithmetic on binary64 *)

Module Py.

(** An integer read as an exact (unnormalised) binary float [m * 2^0]. *)
Definition Z2SF (z : Z) : spec_float :=
  match z with
  | Z0 => S754_zero false
  | Zpos p => S754_finite false p 0
  | Zneg p => S754_finite true p 0
  end.

(** [float(z)]: the integer rounded to the nearest double, ties to even.
    CPython raises OverflowError above the largest double (about 1.8e308);
    the embedding yields infinity there.  No list length or pixel count of
    the program comes near that bound. *)
Definition float_of_int (z : Z) : float :=
  SF2Prim (binary_normalize prec emax z 0 false).

(** [a / b] on two Python ints ([long_true_divide]): the exact quotient,
    correctly rounded once. *)
Definition int_truediv (a b : Z) : float :=
  SF2Prim (SF64div (Z2SF a) (Z2SF b)).

(** The builtins [min(a, b)] and [max(a, b)]: the first argument is kept
    unless the second compares strictly smaller (resp. larger).  Where the
    source passes an int literal ([100], [1], [20], [10]) next to a float,
    the embedding passes its double, which is exact and compares alike. *)
Definition min2 (a b : float) : float := if (b <? a)%float then b else a.
Definition max2 (a b : float) : float := if (a <? b)%float then b else a.

(** [m * 2^e * 100] rounded to an integer, halves to the even neighbour. *)
Definition round_half_even_scaled (m : positive) (e : Z) : Z :=
  let n := Zpos m * 100 in
  match e with
  | Zneg p =>
      let d := Z.pow_pos 2 p in
      let q := n / d in
      let r := n mod d in
      match 2 * r ?= d with
      | Lt => q
      | Gt => q + 1
      | Eq => if Z.even q then q else q + 1
      end
  | _ => n * 2 ^ e
  end.

(** [round(x, 2)] on a float ([float___round___impl], [double_round]): NaN,
    infinities and zeros are returned as they are; a finite [x] is printed
    to two decimals, correctly rounded from its exact binary value, and the
    decimal [n / 100] is read back as the nearest double, with the sign of
    [x]. *)
Definition round2 (x : float) : float :=
  match Prim2SF x with
  | S754_finite s m e =>
      let n := round_half_even_scaled m e in
      let num := match n with
                 | Zpos p => S754_finite s p 0
                 | _ => S754_zero s
                 end in
      SF2Prim (SF64div num (Z2SF 100))
  | _ => x
  end.

(** [int(x)] on a float: truncation toward zero; [None] where Python raises
    (ValueError on NaN, OverflowError on an infinity). *)
Definition int_of_float (x : float) : option Z :=
  match Prim2SF x with
  | S754_zero _ => Some 0
  | S754_finite s m e =>
      let a := match e with
               | Zneg p => Zpos m / Z.pow_pos 2 p
               | _ => Zpos m * 2 ^ e
               end in
      Some (if s then - a else a)
  | _ => None
  end.

(** [np.minimum] as numpy's reduction loop computes it. *)
Definition np_minimum (a b : float) : float :=
  if ((a <? b)%float || is_nan a) then a else b.

(** [arr.min()] of a non-empty float array. *)
Definition np_min (d0 : float) (ds : list float) : float :=
  fold_left np_minimum ds d0.

(** The value of an int64 array operation: [z] wrapped into
    [[-2^63, 2^63)], as numpy integer arithmetic does without a warning. *)
Definition wrap64 (z : Z) : Z := (z + 2 ^ 63) mod 2 ^ 64 - 2 ^ 63.

(** The unrolled loop of numpy's [DOUBLE_pairwise_sum]: eight accumulators
    take the entries eight at a time, as long as eight entries are left. *)
Fixpoint unrolled (r0 r1 r2 r3 r4 r5 r6 r7 : float) (a : list float)
  : float * float * float * float * float * float * float * float
    * list float :=
  match a with
  | b0 :: b1 :: b2 :: b3 :: b4 :: b5 :: b6 :: b7 :: rest =>
      unrolled (r0 + b0) (r1 + b1) (r2 + b2) (r3 + b3)
               (r4 + b4) (r5 + b5) (r6 + b6) (r7 + b7) rest
  | _ => (r0, r1, r2, r3, r4, r5, r6, r7, a)
  end%float.

(** [DOUBLE_pairwise_sum] on at most 128 entries: fewer than eight are
    added left to right from [0.0]; otherwise the eight accumulators start
    from the first eight entries, are added up as a balanced tree, and the
    entries left over are added one by one. *)
Definition block_sum (a : list float) : float :=
  match a with
  | a0 :: a1 :: a2 :: a3 :: a4 :: a5 :: a6 :: a7 :: rest =>
      let '(r0, r1, r2, r3, r4, r5, r6, r7, tail) :=
        unrolled a0 a1 a2 a3 a4 a5 a6 a7 rest in
      fold_left PrimFloat.add tail
        (((r0 + r1) + (r2 + r3)) + ((r4 + r5) + (r6 + r7)))%float
  | _ => fold_left PrimFloat.add a 0%float
  end.

(** [DOUBLE_pairwise_sum]: more than 128 entries are split at half the
    length rounded down to a multiple of eight, and the two sums are added.
    [depth] bounds the nesting of the halving; the length of the array is
    always enough (see [pairwise_sum_depth]). *)
Fixpoint pairwise_sum (depth : nat) (a : list float) : float :=
  match depth with
  | S depth' =>
      let n := length a in
      if (128 <? n)%nat then
        let n2 := (n / 2)%nat in
        let n2 := (n2 - n2 mod 8)%nat in
        (pairwise_sum depth' (take n2 a) + pairwise_sum depth' (drop n2 a))%float
      else block_sum a
  | O => block_sum a
  end.

(** [np.add.reduce] on a contiguous array of doubles: the identity [0.0]
    plus the pairwise sum.  (numpy releases that start from [-0.0] instead
    give the same double whenever an entry is not [-0.0].) *)
Definition np_sum (a : list float) : float :=
  (0 + pairwise_sum (length a) a)%float.

(** [np.mean] of a list of doubles: [np.add.reduce] divided by the count. *)
Definition np_mean (vs : list float) : float :=
  (np_sum vs / float_of_int (Z.of_nat (length vs)))%float.

End Py.

(** ** config.py: crowd analytics thresholds *)

Module Config.
Definition DENSITY_GRID_SIZE : Z := 50.
Definition HIGH_DENSITY_THRESHOLD : Z := 5.
Definition ANOMALY_MOVEMENT_THRESHOLD : Z := 50.
Definition CLUSTERING_EPS : Z := 100.
Definition MIN_CLUSTER_SIZE : Z := 10.
End Config.

(** ** Data model *)

Inductive RiskLevel := LOW | MEDIUM | HIGH | CRITICAL.

Inductive AnomalyType :=
  SUDDEN_MOVEMENT | HIGH_DENSITY | CLUSTERING | RUSH_BEHAVIOR | NORMAL.

Inductive DensityLevel := level_high | level_critical.

Definition point : Type := Z * Z.
Definition box : Type := Z * Z * Z * Z.

(** One detection dictionary of the detector. *)
Record Detection := {
  det_bbox : box;
  det_confidence : float;
  det_center : point;
  det_area : Z
}.

(** One zone dictionary of [detect_high_density_zones]. *)
Record DensityZone := {
  grid_position : Z * Z;
  zone_bbox : box;
  person_count : Z;
  density_level : DensityLevel
}.

(** One cluster dictionary of [detect_clusters]. *)
Record Cluster := {
  cluster_id : Z;
  size : Z;
  center : float * float;
  cluster_bbox : box;
  area : Z
}.

Record CrowdMetrics := {
  total_count : Z;
  density_score : float;
  risk_level : RiskLevel;
  risk_score : float;
  anomaly_type : AnomalyType;
  high_density_zones : list DensityZone;
  clusters : list Cluster;
  avg_velocity : float;
  metrics_frame_area : Z;
  timestamp : string
}.

(** The fields of a [CrowdAnalyzer] instance.  [previous_positions] is [None]
    until the first call of [calculate_movement]. *)
Record CrowdAnalyzer := {
  frame_height : Z;
  frame_width : Z;
  frame_area : Z;
  grid_size : Z;
  previous_positions : option (list point);
  previous_timestamp : option string
}.

(** [CrowdAnalyzer.__init__]. *)
Definition init (frame_shape : Z * Z) : CrowdAnalyzer :=
  let '(h, w) := frame_shape in
  {| frame_height := h;
     frame_width := w;
     frame_area := h * w;
     grid_size := Config.DENSITY_GRID_SIZE;
     previous_positions := None;
     previous_timestamp := None |}.

(** [self.previous_positions = ps]. *)
Definition set_previous_positions (self : CrowdAnalyzer) (ps : list point)
  : CrowdAnalyzer :=
  {| frame_height := frame_height self;
     frame_width := frame_width self;
     frame_area := frame_area self;
     grid_size := grid_size self;
     previous_positions := Some ps;
     previous_timestamp := previous_timestamp self |}.

(** ** Density score *)

(** [CrowdAnalyzer.calculate_density_score]. *)
Definition calculate_density_score (self : CrowdAnalyzer) (person_count : Z)
  : float :=
  if frame_area self =? 0 then 0%float
  else
    let pixels_per_sqm := 10000 in
    let frame_area_sqm := Py.int_truediv (frame_area self) pixels_per_sqm in
    let density :=
      (Py.float_of_int person_count / Py.max2 frame_area_sqm 1)%float in
    let density_score := Py.min2 (density / 2 * 100)%float 100%float in
    Py.round2 density_score.

(** ** Risk classification *)

(** [CrowdAnalyzer.classify_risk].  Each [let] is one assignment of the source,
    in its order. *)
Definition classify_risk (person_count : Z) (density_score : float)
    (high_density_zones : list DensityZone) (avg_velocity : float)
  : RiskLevel * float * AnomalyType :=
  let threshold := Py.float_of_int Config.ANOMALY_MOVEMENT_THRESHOLD in
  let n_zones := Z.of_nat (length high_density_zones) in
  let risk_score := 0%float in
  let risk_score := (risk_score + density_score * 0.4)%float in
  let zone_factor := Z.min (n_zones * 10) 30 in
  let risk_score := (risk_score + Py.float_of_int zone_factor)%float in
  let velocity_factor := Py.min2 (avg_velocity / threshold * 20)%float 20%float in
  let risk_score := (risk_score + velocity_factor)%float in
  let count_factor :=
    Py.min2 (Py.int_truediv person_count 100 * 10)%float 10%float in
  let risk_score := (risk_score + count_factor)%float in
  let risk_score := Py.min2 risk_score 100%float in
  let risk_level :=
    if (risk_score <? 25)%float then LOW
    else if (risk_score <? 50)%float then MEDIUM
    else if (risk_score <? 75)%float then HIGH
    else CRITICAL in
  let anomaly_type := NORMAL in
  let anomaly_type :=
    if (threshold <? avg_velocity)%float then SUDDEN_MOVEMENT
    else if 3 <? n_zones then HIGH_DENSITY
    else if (70 <? density_score)%float then CLUSTERING
    else anomaly_type in
  let anomaly_type :=
    match risk_level with
    | CRITICAL => RUSH_BEHAVIOR
    | _ => anomaly_type
    end in
  (risk_level, Py.round2 risk_score, anomaly_type).

(** ** Exceptions *)

Inductive exn := IndexError | ValueError | OverflowError | ZeroDivisionError.

(** A computation that returns a value or raises. *)
Inductive result (A : Type) : Type :=
  | Ok (a : A)
  | Raise (e : exn).
Arguments Ok {A} a.
Arguments Raise {A} e.

#[global] Instance result_ret : MRet result := @Ok.
#[global] Instance result_bind : MBind result := fun A B f r =>
  match r with
  | Ok a => f a
  | Raise e => Raise e
  end.

Definition is_Ok {A} (r : result A) : bool :=
  match r with Ok _ => true | Raise _ => false end.

(** ** numpy arrays of counts *)

Module Np.

(** [np.zeros((rows, cols), dtype=np.int32)]; a negative dimension is a
    ValueError. *)
Definition zeros (rows cols : Z) : result (list (list Z)) :=
  if (rows <? 0) || (cols <? 0) then Raise ValueError
  else Ok (replicate (Z.to_nat rows) (replicate (Z.to_nat cols) 0)).

(** An index into an axis of [n] entries: [0 .. n-1] as it is, [-n .. -1]
    counted from the end, anything else an IndexError. *)
Definition index (n i : Z) : result nat :=
  if (0 <=? i) && (i <? n) then Ok (Z.to_nat i)
  else if (- n <=? i) && (i <? 0) then Ok (Z.to_nat (i + n))
  else Raise IndexError.

(** [a[i, j] += 1] on an array of shape [(rows, cols)]. *)
Definition incr (rows cols : Z) (a : list (list Z)) (i j : Z)
  : result (list (list Z)) :=
  i' ← index rows i;
  j' ← index cols j;
  Ok (alter (alter (Z.add 1) j') i' a).

(** [a[i, j]] for [i], [j] produced by [range]. *)
Definition get (a : list (list Z)) (i j : nat) : Z :=
  default 0 (a !! i ≫= (.!! j)).

End Np.

(** [a // b] on Python ints. *)
Definition floordiv (a b : Z) : result Z :=
  if b =? 0 then Raise ZeroDivisionError else Ok (a / b).

(** [int(x / grid_size)] for a numpy int64 coordinate [x]. *)
Definition cell_of (x grid_size : Z) : result Z :=
  match Py.int_of_float (Py.float_of_int x / Py.float_of_int grid_size)%float with
  | Some c => Ok c
  | None => Raise ValueError
  end.

(** ** High-density zones *)

(** The first loop of [detect_high_density_zones]: one pass over the centers,
    each one counted in its grid cell. *)
Fixpoint tally (grid_size grid_h grid_w : Z) (grid_counts : list (list Z))
    (centers : list point) : result (list (list Z)) :=
  match centers with
  | [] => Ok grid_counts
  | (x, y) :: rest =>
      cx ← cell_of x grid_size;
      let grid_x := Z.min cx (grid_w - 1) in
      cy ← cell_of y grid_size;
      let grid_y := Z.min cy (grid_h - 1) in
      grid_counts ← Np.incr grid_h grid_w grid_counts grid_y grid_x;
      tally grid_size grid_h grid_w grid_counts rest
  end.

(** The body of the second loop for the cell of row [i], column [j]. *)
Definition zone_of_cell (grid_size : Z) (grid_counts : list (list Z))
    (i j : nat) : list DensityZone :=
  let count := Np.get grid_counts i j in
  let i := Z.of_nat i in
  let j := Z.of_nat j in
  if Config.HIGH_DENSITY_THRESHOLD <=? count then
    [ {| grid_position := (j, i);
         zone_bbox := (j * grid_size, i * grid_size,
                       (j + 1) * grid_size, (i + 1) * grid_size);
         person_count := count;
         density_level :=
           if Config.HIGH_DENSITY_THRESHOLD * 2 <? count
           then level_critical else level_high |} ]
  else [].

(** [CrowdAnalyzer.detect_high_density_zones]. *)
Definition detect_high_density_zones (self : CrowdAnalyzer)
    (centers : list point) : result (list DensityZone) :=
  if (length centers =? 0)%nat then Ok []
  else
    grid_h ← floordiv (frame_height self) (grid_size self);
    grid_w ← floordiv (frame_width self) (grid_size self);
    grid_counts ← Np.zeros grid_h grid_w;
    grid_counts ← tally (grid_size self) grid_h grid_w grid_counts centers;
    Ok (flat_map
          (fun i => flat_map (zone_of_cell (grid_size self) grid_counts i)
                      (seq 0 (Z.to_nat grid_w)))
          (seq 0 (Z.to_nat grid_h))).

(** ** Clusters *)

(** What the program takes from scikit-learn and from the Python runtime
    without fixing it: the labels of
    [DBSCAN(eps=CLUSTERING_EPS, min_samples=MIN_CLUSTER_SIZE).fit_predict], one
    per center with [-1] for noise, and the order in which [set(labels)] is
    iterated. *)
Class Sklearn := {
  fit_predict : Z -> Z -> list point -> list Z;
  set_iter : list Z -> list Z
}.

(** [centers[labels == label]]. *)
Fixpoint select (centers : list point) (labels : list Z) (label : Z)
  : list point :=
  match centers, labels with
  | c :: cs, l :: ls =>
      if l =? label then c :: select cs ls label else select cs ls label
  | _, _ => []
  end.

(** Column minimum and maximum of a non-empty integer array ([0] stands for
    the empty case, which no label of [set(labels)] produces). *)
Definition col_min (xs : list Z) : Z :=
  match xs with
  | [] => 0
  | x :: rest => fold_left Z.min rest x
  end.

Definition col_max (xs : list Z) : Z :=
  match xs with
  | [] => 0
  | x :: rest => fold_left Z.max rest x
  end.

(** [pts.mean(axis=0)] of an integer column: the coordinates are summed as
    doubles, exactly so for pixel coordinates, and divided by the count. *)
Definition col_mean (xs : list Z) : float :=
  (Py.float_of_int (fold_left Z.add xs 0%Z)
   / Py.float_of_int (Z.of_nat (length xs)))%float.

(** The dictionary built for one label. *)
Definition make_cluster (centers : list point) (labels : list Z) (label : Z)
  : Cluster :=
  let cluster_points := select centers labels label in
  let xs := map fst cluster_points in
  let ys := map snd cluster_points in
  let x_min := col_min xs in
  let y_min := col_min ys in
  let x_max := col_max xs in
  let y_max := col_max ys in
  {| cluster_id := label;
     size := Z.of_nat (length cluster_points);
     center := (col_mean xs, col_mean ys);
     cluster_bbox := (x_min, y_min, x_max, y_max);
     area := (x_max - x_min) * (y_max - y_min) |}.

(** [list.sort(key=lambda x: x["size"], reverse=True)]: a stable sort, larger
    sizes first; entries of equal size keep the order they had.  An entry is
    put in front of the first one that is not strictly larger. *)
Fixpoint insert_by_size (c : Cluster) (sorted : list Cluster) : list Cluster :=
  match sorted with
  | [] => [c]
  | d :: rest =>
      if size c <? size d then d :: insert_by_size c rest
      else c :: d :: rest
  end.

Definition sort_by_size_desc (cs : list Cluster) : list Cluster :=
  fold_right insert_by_size [] cs.

(** The loop over [unique_labels]: noise is skipped, every other label
    appends its cluster. *)
Definition collect_clusters (centers : list point) (labels : list Z)
    (unique_labels : list Z) : list Cluster :=
  fold_left
    (fun clusters label =>
       if label =? -1 then clusters
       else clusters ++ [make_cluster centers labels label])
    unique_labels [].

(** [CrowdAnalyzer.detect_clusters]. *)
Definition detect_clusters `{Sklearn} (centers : list point) : list Cluster :=
  if Z.of_nat (length centers) <? Config.MIN_CLUSTER_SIZE then []
  else
    let labels :=
      fit_predict Config.CLUSTERING_EPS Config.MIN_CLUSTER_SIZE centers in
    let unique_labels := set_iter labels in
    let clusters := collect_clusters centers labels unique_labels in
    sort_by_size_desc clusters.

(** ** Movement between two frames *)

(** One entry of [np.linalg.norm(previous_positions - curr_pos, axis=1)]: the
    difference of the two int64 rows, which wraps, cast to double, squared,
    summed and rooted.  (The sum of the two squares starts from the identity
    of [add.reduce], which a square, never [-0.0], absorbs.) *)
Definition row_norm (curr_pos prev_pos : point) : float :=
  let dx := Py.float_of_int (Py.wrap64 (fst prev_pos - fst curr_pos)) in
  let dy := Py.float_of_int (Py.wrap64 (snd prev_pos - snd curr_pos)) in
  sqrt (dx * dx + dy * dy)%float.

(** [distances.min()]; numpy raises ValueError on an empty array. *)
Definition distances_min (distances : list float) : result float :=
  match distances with
  | [] => Raise ValueError
  | d :: ds => Ok (Py.np_min d ds)
  end.

(** The [for curr_pos in current_positions] loop of [calculate_movement],
    started with the [velocities] collected so far. *)
Fixpoint movement_loop (previous_positions : list point) (time_delta : float)
    (velocities : list float) (current_positions : list point)
  : result (list float) :=
  match current_positions with
  | [] => Ok velocities
  | curr_pos :: rest =>
      let distances := map (row_norm curr_pos) previous_positions in
      min_dist ← distances_min distances;
      let velocities :=
        if (min_dist <? 200)%float
        then velocities ++ [(min_dist / Py.max2 time_delta 0.001)%float]
        else velocities in
      movement_loop previous_positions time_delta velocities rest
  end.

(** [CrowdAnalyzer.calculate_movement]: the velocity and the analyzer after
    the call. *)
Definition calculate_movement (self : CrowdAnalyzer)
    (current_positions : list point) (time_delta : float)
  : result (float * CrowdAnalyzer) :=
  match previous_positions self with
  | None => Ok (0%float, set_previous_positions self current_positions)
  | Some previous =>
      if (length current_positions =? 0)%nat then
        Ok (0%float, set_previous_positions self current_positions)
      else if (length previous =? 0)%nat then
        Ok (0%float, set_previous_positions self current_positions)
      else
        velocities ← movement_loop previous time_delta [] current_positions;
        let self := set_previous_positions self current_positions in
        match velocities with
        | [] => Ok (0%float, self)
        | _ :: _ => Ok (Py.np_mean velocities, self)
        end
  end.

(** ** The analysis of one frame *)

(** The default of the [time_delta] parameter of [analyze]. *)
Definition default_time_delta : float := 0.33%float.

(** [CrowdAnalyzer.analyze]: the metrics and the analyzer after the call, or
    the exception that escapes. *)
Definition analyze `{Sklearn} (self : CrowdAnalyzer)
    (detections : list Detection) (timestamp : string) (time_delta : float)
  : result (CrowdMetrics * CrowdAnalyzer) :=
  let person_count := Z.of_nat (length detections) in
  let centers :=
    if 0 <? person_count then map det_center detections else [] in
  let density_score := calculate_density_score self person_count in
  high_density_zones ← detect_high_density_zones self centers;
  let clusters := detect_clusters centers in
  '(avg_velocity, self') ← calculate_movement self centers time_delta;
  let '(risk_level, risk_score, anomaly_type) :=
    classify_risk person_count density_score high_density_zones avg_velocity in
  Ok ({| total_count := person_count;
         density_score := density_score;
         risk_level := risk_level;
         risk_score := risk_score;
         anomaly_type := anomaly_type;
         high_density_zones := high_density_zones;
         clusters := clusters;
         avg_velocity := Py.round2 avg_velocity;
         metrics_frame_area := frame_area self;
         timestamp := timestamp |},
      self').

(** ** The specification's wording, for comparison with the code *)

Module Spec.

(** Section 4.4, the four factors and their sum. *)
Definition density_factor (density_score : float) : float :=
  (density_score * 0.4)%float.

Definition zone_factor (zones : list DensityZone) : float :=
  Py.float_of_int (Z.min (Z.of_nat (length zones) * 10) 30).

Definition velocity_factor (avg_velocity : float) : float :=
  Py.min2
    (avg_velocity / Py.float_of_int Config.ANOMALY_MOVEMENT_THRESHOLD * 20)%float
    20%float.

Definition count_factor (count : Z) : float :=
  Py.min2 (Py.int_truediv count 100 * 10)%float 10%float.

Definition factor_sum (count : Z) (density_score : float)
    (zones : list DensityZone) (avg_velocity : float) : float :=
  (0 + density_factor density_score + zone_factor zones
   + velocity_factor avg_velocity + count_factor count)%float.

(** [clamp(x, lo, hi)]. *)
Definition clamp (x lo hi : float) : float := Py.max2 lo (Py.min2 x hi).

(** The level thresholds: below 25 Low, below 50 Medium, below 75 High,
    otherwise Critical. *)
Definition level_of (score : float) : RiskLevel :=
  if (score <? 25)%float then LOW
  else if (score <? 50)%float then MEDIUM
  else if (score <? 75)%float then HIGH
  else CRITICAL.

(** "risk_score = clamp(sum, 0, 100), rounded to 2 decimals", and the level
    read off that risk score. *)
Definition risk_score_claimed (count : Z) (density_score : float)
    (zones : list DensityZone) (avg_velocity : float) : float :=
  Py.round2 (clamp (factor_sum count density_score zones avg_velocity) 0 100).

Definition risk_level_claimed (count : Z) (density_score : float)
    (zones : list DensityZone) (avg_velocity : float) : RiskLevel :=
  level_of (risk_score_claimed count density_score zones avg_velocity).

(** The total as the code caps it: [min(sum, 100)]. *)
Definition capped_sum (count : Z) (density_score : float)
    (zones : list DensityZone) (avg_velocity : float) : float :=
  Py.min2 (factor_sum count density_score zones avg_velocity) 100.

(** The ordered guard chain of the anomaly classification. *)
Definition anomaly_chain (density_score : float) (zones : list DensityZone)
    (avg_velocity : float) : AnomalyType :=
  if (Py.float_of_int Config.ANOMALY_MOVEMENT_THRESHOLD <? avg_velocity)%float
  then SUDDEN_MOVEMENT
  else if (3 <? length zones)%nat then HIGH_DENSITY
  else if (70 <? density_score)%float then CLUSTERING
  else NORMAL.

(** The final override. *)
Definition anomaly_of (level : RiskLevel) (chain : AnomalyType) : AnomalyType :=
  match level with
  | CRITICAL => RUSH_BEHAVIOR
  | _ => chain
  end.


(** The rest of the section is worded once for any distance [dist], to be
    read with [euclid] and compared with the norm the code computes. *)

(** [d] is the distance from [p] to a nearest point of [previous]: some
    stored point lies at distance [d], and none strictly closer. *)
Definition nearest_at (dist : point -> point -> float)
    (previous : list point) (p : point) (d : float) : Prop :=
  (exists q, q ∈ previous /\ d = dist p q) /\
  (forall q, q ∈ previous -> (dist p q <? d)%float = false).

(** The distance from [p] to its nearest stored point, if there is one: the
    minimum of the distances to the stored points. *)
Definition nearest_distance (dist : point -> point -> float)
    (previous : list point) (p : point) : option float :=
  match map (dist p) previous with
  | [] => None
  | d :: ds => Some (Py.np_min d ds)
  end.

(** The velocity sample of one current point: [distance / max(time_delta,
    epsilon)] exactly when the nearest distance is below 200 pixels. *)
Definition matched_velocity (dist : point -> point -> float)
    (previous : list point) (time_delta : float) (p : point) : option float :=
  match nearest_distance dist previous p with
  | Some d =>
      if (d <? 200)%float
      then Some (d / Py.max2 time_delta 0.001)%float
      else None
  | None => None
  end.

(** The velocity the motion estimator is to return: the arithmetic mean of
    the included velocities, which on doubles is numpy's mean. *)
Definition movement (dist : point -> point -> float)
    (previous : option (list point))
    (current_positions : list point) (time_delta : float) : float :=
  match previous, current_positions with
  | None, _ => 0
  | Some _, [] => 0
  | Some previous, _ :: _ =>
      match omap (matched_velocity dist previous time_delta)
              current_positions with
      | [] => 0
      | vs => Py.np_mean vs
      end
  end.

End Spec.

(** ** Predicates on doubles used in the statements *)

(** A double that is not NaN and carries the sign bit [s]. *)
Definition has_sign (s : bool) (x : spec_float) : Prop :=
  match x with
  | S754_zero s' | S754_infinity s' | S754_finite s' _ _ => s' = s
  | S754_nan => False
  end.

(** [0 <= x]: a zero of either sign, a positive double or plus infinity. *)
Definition ge0_sf (x : spec_float) : Prop :=
  match x with
  | S754_zero _ => True
  | _ => has_sign false x
  end.

Definition ge0 (x : float) : Prop := ge0_sf (Prim2SF x).

(** A finite double. *)
Definition finite_sf (x : spec_float) : Prop :=
  match x with
  | S754_zero _ | S754_finite _ _ _ => True
  | _ => False
  end.

(** [0 <= r <= 100], as Python compares. *)
Definition in_0_100 (r : float) : Prop :=
  (0 <=? r)%float = true /\ (r <=? 100)%float = true.

Definition in_0_100b (r : float) : bool :=
  (0 <=? r)%float && (r <=? 100)%float.

(** What [round(x, 2)] reads back from the decimal [n / 100]. *)
Definition round2_of (n : Z) : float :=
  SF2Prim (SF64div (match n with
                    | Z.pos p => S754_finite false p 0
                    | _ => S754_zero false
                    end) (Py.Z2SF 100)).

Definition round2_in_range (n : Z) : bool := in_0_100b (round2_of n).

(** [f] holds on [0 .. k]. *)
Fixpoint all_upto (f : Z -> bool) (k : nat) : bool :=
  match k with
  | O => f 0
  | S k' => f (Z.of_nat k) && all_upto f k'
  end.

(** A positive double or plus infinity. *)
Definition pos_sf (x : spec_float) : Prop :=
  match x with
  | S754_finite false _ _ | S754_infinity false => True
  | _ => False
  end.

(** The risk score of a classification. *)
Definition score_of (r : RiskLevel * float * AnomalyType) : float := r.1.2.
Definition level_of_result (r : RiskLevel * float * AnomalyType) : RiskLevel :=
  r.1.1.
Definition anomaly_of_result (r : RiskLevel * float * AnomalyType)
  : AnomalyType := r.2.

(** ** Concrete inputs used by the examples *)

(** The centers of the five detections of [test_analyzer]. *)
Definition scenario_centers : list point :=
  [(100, 100); (120, 105); (105, 120); (600, 400); (605, 405)].

(** The five detections of [test_analyzer]. *)
Definition fake_detections : list Detection :=
  [ {| det_bbox := (90, 90, 110, 110); det_confidence := 0.9;
       det_center := (100, 100); det_area := 400 |};
    {| det_bbox := (110, 95, 130, 115); det_confidence := 0.9;
       det_center := (120, 105); det_area := 400 |};
    {| det_bbox := (95, 110, 115, 130); det_confidence := 0.9;
       det_center := (105, 120); det_area := 400 |};
    {| det_bbox := (590, 390, 610, 410); det_confidence := 0.9;
       det_center := (600, 400); det_area := 400 |};
    {| det_bbox := (595, 395, 615, 415); det_confidence := 0.9;
       det_center := (605, 405); det_area := 400 |} ].

(** One person at pixel [(100, 10)], inside a frame 40 pixels high. *)
Definition low_frame_detection : Detection :=
  {| det_bbox := (90, 0, 110, 20); det_confidence := 0.9;
     det_center := (100, 10); det_area := 400 |}.

(** A clustering that labels every point as noise and iterates labels in
    list order; it only instantiates [Sklearn] in examples. *)
Definition all_noise : Sklearn :=
  {| fit_predict := fun _ _ centers => map (fun _ => -1) centers;
     set_iter := fun labels => labels |}.

(** ** Orders on clusters *)

(** [b] is not larger than [a]. *)
Definition size_ge (a b : Cluster) : Prop := size b <= size a.

(** The clusters of [detect_clusters] in the order the loop over
    [unique_labels] appends them, before the sort. *)
Definition encounter_order `{Sklearn} (centers : list point) : list Cluster :=
  if Z.of_nat (length centers) <? Config.MIN_CLUSTER_SIZE then []
  else
    let labels :=
      fit_predict Config.CLUSTERING_EPS Config.MIN_CLUSTER_SIZE centers in
    collect_clusters centers labels (set_iter labels).

(** The entries of a given size, in their order. *)
Definition of_size (s : Z) (cs : list Cluster) : list Cluster :=
  filter (fun c => size c = s) cs.

(** ** The order of doubles *)

(** A double that is not NaN, as a triple that orders lexicographically:
    class (minus infinity, negative, zero, positive, plus infinity), exponent
    and mantissa, the last two negated for negative doubles. *)
Definition sf_key (x : spec_float) : Z * Z * Z :=
  match x with
  | S754_infinity true => (-2, 0, 0)
  | S754_finite true m e => (-1, - e, - Z.pos m)
  | S754_zero _ => (0, 0, 0)
  | S754_finite false m e => (1, e, Z.pos m)
  | S754_infinity false => (2, 0, 0)
  | S754_nan => (0, 0, 0)
  end.

Definition key_lt (a b : Z * Z * Z) : Prop :=
  a.1.1 < b.1.1 \/
  (a.1.1 = b.1.1 /\ (a.1.2 < b.1.2 \/ (a.1.2 = b.1.2 /\ a.2 < b.2))).

(** ** Invariants of the results *)

(** What every zone of an analyzer satisfies: the threshold is met, the
    level is critical exactly above twice the threshold, the cell lies in the
    grid and the box is the cell. *)
Definition zone_ok (self : CrowdAnalyzer) (z : DensityZone) : Prop :=
  let g := grid_size self in
  let '(j, i) := grid_position z in
  Config.HIGH_DENSITY_THRESHOLD <= person_count z /\
  (density_level z = level_critical
   <-> Config.HIGH_DENSITY_THRESHOLD * 2 < person_count z) /\
  0 <= i < frame_height self / g /\
  0 <= j < frame_width self / g /\
  zone_bbox z = (j * g, i * g, (j + 1) * g, (i + 1) * g).

(** What every cluster built from [centers] satisfies: it is not the noise
    label, its size counts the centers with its label, its box is ordered
    and its area is not negative. *)
Definition cluster_ok (centers : list point) (labels : list Z) (c : Cluster)
  : Prop :=
  cluster_id c <> -1 /\
  size c = Z.of_nat (length (select centers labels (cluster_id c))) /\
  0 <= size c <= Z.of_nat (length centers) /\
  (let '(x_min, y_min, x_max, y_max) := cluster_bbox c in
   x_min <= x_max /\ y_min <= y_max) /\
  0 <= area c.

(** The centers [analyze] extracts from a detection list. *)
Definition centers_of (detections : list Detection) : list point :=
  map det_center detections.

(** ** Sums over the grid *)

Definition sum_list (xs : list Z) : Z := foldr Z.add 0 xs.

(** The number of centers counted in the whole grid. *)
Definition grid_total (g : list (list Z)) : Z := sum_list (concat g).

(** The number of persons the zones account for. *)
Definition persons_in (zones : list DensityZone) : Z :=
  sum_list (map person_count zones).

(** An array of [rows] rows and [cols] columns without negative entries. *)
Definition grid_shape (rows cols : nat) (g : list (list Z)) : Prop :=
  length g = rows /\
  Forall (fun r => length r = cols /\ Forall (fun c => 0 <= c) r) g.

(** The sum of [f] over a list of indices. *)
Definition sum_over (l : list nat) (f : nat -> Z) : Z := sum_list (map f l).

(** A cell as the zones count it: dropped below the threshold. *)
Definition kept (c : Z) : Z :=
  if Config.HIGH_DENSITY_THRESHOLD <=? c then c else 0.

(** ** More predicates on doubles *)

(** A zero or a finite double whose exponent is at most [B]. *)
Definition small_sf (B : Z) (x : spec_float) : Prop :=
  match x with
  | S754_zero _ => True
  | S754_finite _ _ e => e <= B
  | _ => False
  end.

(** A positive finite double. *)
Definition pos_finite_sf (x : spec_float) : Prop :=
  match x with
  | S754_finite false _ _ => True
  | _ => False
  end.

(** A point with coordinates in [0, 2^63). *)
Definition in_quadrant (p : point) : Prop :=
  0 <= p.1 < 2 ^ 63 /\ 0 <= p.2 < 2 ^ 63.


(** ** Sums of doubles *)

(** [P] holds of the eight accumulators and of the entries left over. *)
Definition lanes_all (P : float -> Prop)
    (t : float * float * float * float * float * float * float * float
         * list float) : Prop :=
  let '(r0, r1, r2, r3, r4, r5, r6, r7, tail) := t in
  P r0 /\ P r1 /\ P r2 /\ P r3 /\ P r4 /\ P r5 /\ P r6 /\ P r7 /\
  Forall P tail.

(** ** Pixel positions *)


(** ** The cell of a center *)

(** The row and column of the entry that the loop over the centers
    increments for one center: the clamped cell of its coordinates, resolved
    as numpy resolves an index. *)
Definition counted_cell (grid_size grid_h grid_w : Z) (c : point)
  : result (nat * nat) :=
  let '(x, y) := c in
  cx ← cell_of x grid_size;
  cy ← cell_of y grid_size;
  i ← Np.index grid_h (Z.min cy (grid_h - 1));
  j ← Np.index grid_w (Z.min cx (grid_w - 1));
  Ok (i, j).

Definition in_cell (grid_size grid_h grid_w : Z) (i j : nat) (c : point)
  : bool :=
  match counted_cell grid_size grid_h grid_w c with
  | Ok (i', j') => (i' =? i)%nat && (j' =? j)%nat
  | Raise _ => false
  end.

(** The number of centers counted in row [i], column [j]. *)
Definition count_in_cell (grid_size grid_h grid_w : Z) (i j : nat)
    (centers : list point) : Z :=
  Z.of_nat (length (List.filter (in_cell grid_size grid_h grid_w i j) centers)).

(** Eleven centers in two groups: five in the cell of row 0, column 0 and
    six in the cell of row 2, column 2. *)
Definition two_groups : list point :=
  [(10, 10); (100, 100); (20, 30); (120, 105); (105, 120); (49, 49);
   (100, 100); (0, 0); (120, 105); (105, 120); (30, 20)].

Definition two_zones : list DensityZone :=
  [ {| grid_position := (0, 0); zone_bbox := (0, 0, 50, 50);
       person_count := 5; density_level := level_high |};
    {| grid_position := (2, 2); zone_bbox := (100, 100, 150, 150);
       person_count := 6; density_level := level_high |} ].
(** ** Facts about binary64 rounding *)

Lemma shr_1_nonneg mrs : 0 <= shr_m mrs -> 0 <= shr_m (shr_1 mrs).
Proof.
  destruct mrs as [m r s]; simpl. intros Hm.
  destruct m as [|p|p]; [simpl; lia| |lia].
  destruct p; simpl; lia.
Qed.

Lemma iter_pos_shr_1_nonneg p : forall mrs,
  0 <= shr_m mrs -> 0 <= shr_m (SpecFloat.iter_pos shr_1 p mrs).
Proof.
  induction p as [p IH|p IH|]; intros mrs Hm; simpl.
  - apply IH, IH, shr_1_nonneg, Hm.
  - apply IH, IH, Hm.
  - apply shr_1_nonneg, Hm.
Qed.

Lemma shr_record_of_loc_m m l : shr_m (shr_record_of_loc m l) = m.
Proof. destruct l as [|[]]; reflexivity. Qed.

Lemma shr_fexp_nonneg m e l :
  0 <= m -> 0 <= shr_m (fst (shr_fexp prec emax m e l)).
Proof.
  intros Hm. unfold shr_fexp, shr.
  destruct (fexp prec emax (Zdigits2 m + e) - e) as [|p|p]; simpl;
    rewrite ?shr_record_of_loc_m; try lia.
  apply iter_pos_shr_1_nonneg. rewrite shr_record_of_loc_m. lia.
Qed.

Lemma round_nearest_even_nonneg m l : 0 <= m -> 0 <= round_nearest_even m l.
Proof.
  intros Hm. destruct l as [|[]]; simpl; try lia.
  destruct (Z.even m); lia.
Qed.

Lemma binary_round_aux_sign s mx ex lx :
  0 <= mx -> has_sign s (binary_round_aux prec emax s mx ex lx).
Proof.
  intros Hm. unfold binary_round_aux.
  pose proof (shr_fexp_nonneg mx ex lx Hm) as H1.
  destruct (shr_fexp prec emax mx ex lx) as [mrs' e'] eqn:E1. simpl in H1.
  pose proof (shr_fexp_nonneg _ e' loc_Exact
                (round_nearest_even_nonneg _ (loc_of_shr_record mrs') H1)) as H2.
  destruct (shr_fexp prec emax _ e' loc_Exact) as [mrs'' e''] eqn:E2.
  simpl in H2.
  destruct (shr_m mrs'') as [|p|p]; simpl; try reflexivity; try lia.
  destruct (e'' <=? emax - prec); reflexivity.
Qed.

Lemma binary_round_sign s m e : has_sign s (binary_round prec emax s m e).
Proof.
  unfold binary_round.
  destruct (shl_align m e _) as [mz ez].
  apply binary_round_aux_sign. lia.
Qed.

Lemma binary_normalize_sign z e :
  0 <= z -> has_sign false (binary_normalize prec emax z e false).
Proof.
  intros Hz. destruct z as [|p|p]; simpl; try reflexivity; try lia.
  apply binary_round_sign.
Qed.

Lemma SFldexp_sign s x e : has_sign s x -> has_sign s (SFldexp prec emax x e).
Proof.
  destruct x as [s'|s'| |s' m ex]; simpl; try tauto.
  intros ->. apply binary_round_sign.
Qed.

Lemma SFopp_sign s x : has_sign s x -> has_sign (negb s) (SFopp x).
Proof. destruct x; simpl; try tauto; intros ->; reflexivity. Qed.

Lemma of_uint63_sign n : has_sign false (Prim2SF (of_uint63 n)).
Proof.
  rewrite of_uint63_spec. apply binary_normalize_sign.
  apply Uint63.to_Z_bounded.
Qed.

Lemma SF2Prim_sign s x : has_sign s x -> has_sign s (Prim2SF (SF2Prim x)).
Proof.
  destruct x as [s'|s'| |s' m e]; simpl; try tauto.
  - intros ->. destruct s; reflexivity.
  - intros ->. destruct s; reflexivity.
  - intros ->.
    pose proof (SFldexp_sign false _ e (of_uint63_sign (Uint63.of_Z (Z.pos m)))) as H.
    rewrite <- Z_ldexp_spec in H.
    destruct s; [|exact H].
    rewrite opp_spec. apply (SFopp_sign false), H.
Qed.

Lemma leb0_ge0 x : (0 <=? x)%float = true <-> ge0 x.
Proof.
  rewrite leb_spec. unfold ge0.
  change (Prim2SF 0) with (S754_zero false).
  destruct (Prim2SF x) as [s|s| |s m e]; simpl; unfold SFleb; simpl;
    try destruct s; simpl; intuition congruence.
Qed.

Lemma has_sign_ge0 x : has_sign false x -> ge0_sf x.
Proof. destruct x; simpl; tauto. Qed.

Lemma SFadd_ge0 x y : ge0_sf x -> ge0_sf y -> ge0_sf (SF64add x y).
Proof.
  destruct x as [sx|sx| |sx mx ex], y as [sy|sy| |sy my ey];
    intros Hx Hy; simpl in Hx, Hy; try tauto; subst;
    try exact I; try reflexivity.
  - unfold SF64add, SFadd. destruct sx, sy; exact I.
  - apply has_sign_ge0. unfold SF64add, SFadd. simpl cond_Zopp.
    apply binary_normalize_sign. lia.
Qed.

Lemma add_ge0 x y : ge0 x -> ge0 y -> ge0 (x + y)%float.
Proof. unfold ge0. rewrite add_spec. apply SFadd_ge0. Qed.

Lemma SFmul_pos_ge0 x m e :
  ge0_sf x -> ge0_sf (SF64mul x (S754_finite false m e)).
Proof.
  destruct x as [sx|sx| |sx mx ex]; intros H; simpl in H; try tauto.
  - subst sx. reflexivity.
  - subst sx. apply has_sign_ge0.
    apply (binary_round_aux_sign false (Z.pos (mx * m)) (ex + e) loc_Exact). lia.
Qed.

Lemma mul_pos_ge0 x c m e :
  Prim2SF c = S754_finite false m e -> ge0 x -> ge0 (x * c)%float.
Proof. unfold ge0. rewrite mul_spec. intros ->. apply SFmul_pos_ge0. Qed.

Lemma SFdiv_core_nonneg m1 e1 m2 e2 :
  0 <= (SFdiv_core_binary prec emax (Z.pos m1) e1 (Z.pos m2) e2).1.1.
Proof.
  unfold SFdiv_core_binary.
  set (s := _ - _ - _).
  set (m' := match s with Z.pos _ => _ | 0 => _ | Z.neg _ => _ end).
  assert (0 <= m') as Hm'.
  { subst m'. destruct s; try lia. apply Z.shiftl_nonneg. lia. }
  pose proof (Z_div_mod m' (Z.pos m2) ltac:(lia)) as H.
  destruct (Z.div_eucl m' (Z.pos m2)) as [q r]. simpl.
  destruct H as [H1 H2]. nia.
Qed.

Lemma SFdiv_finite_sign s1 m1 e1 s2 m2 e2 :
  has_sign (xorb s1 s2)
    (SF64div (S754_finite s1 m1 e1) (S754_finite s2 m2 e2)).
Proof.
  unfold SF64div, SFdiv.
  pose proof (SFdiv_core_nonneg m1 e1 m2 e2) as H.
  destruct (SFdiv_core_binary _ _ _ _ _ _) as [[mz ez] lz]. simpl in H.
  apply binary_round_aux_sign, H.
Qed.

Lemma SFdiv_pos_ge0 x m e :
  ge0_sf x -> ge0_sf (SF64div x (S754_finite false m e)).
Proof.
  destruct x as [sx|sx| |sx mx ex]; intros H; simpl in H; try tauto.
  - subst sx. reflexivity.
  - subst sx. apply has_sign_ge0, (SFdiv_finite_sign false mx ex false m e).
Qed.

Lemma div_pos_ge0 x c m e :
  Prim2SF c = S754_finite false m e -> ge0 x -> ge0 (x / c)%float.
Proof. unfold ge0. rewrite div_spec. intros ->. apply SFdiv_pos_ge0. Qed.

Lemma digits2_pos_size m : digits2_pos m = Pos.size m.
Proof. induction m; simpl; congruence. Qed.

Lemma digits2_pos_gt m : Z.pos m < 2 ^ Z.pos (digits2_pos m).
Proof.
  rewrite digits2_pos_size.
  pose proof (Pos.size_gt m) as H.
  apply Pos2Z.pos_lt_pos in H. rewrite Pos2Z.inj_pow in H. exact H.
Qed.

Lemma digits2_pos_le m : 2 ^ Z.pos (digits2_pos m) <= 2 * Z.pos m.
Proof.
  rewrite digits2_pos_size.
  pose proof (Pos.size_le m) as H.
  apply Pos2Z.pos_le_pos in H. rewrite Pos2Z.inj_pow in H. exact H.
Qed.

(** A valid finite double has at most 53 mantissa bits. *)
Lemma valid_mantissa_lt s m e :
  valid_binary (S754_finite s m e) = true -> Z.pos m < 2 ^ 53.
Proof.
  simpl. unfold bounded, canonical_mantissa, fexp.
  intros H. apply andb_prop in H as [H _]. apply Z.eqb_eq in H.
  pose proof (digits2_pos_gt m) as Hm.
  assert (Z.pos (digits2_pos m) <= 53) as Hd by (unfold prec in H; lia).
  eapply Z.lt_le_trans; [exact Hm|].
  apply Z.pow_le_mono_r; lia.
Qed.

Lemma round_half_even_scaled_bounds m p :
  let d := Z.pow_pos 2 p in
  let q := (Z.pos m * 100) / d in
  q <= Py.round_half_even_scaled m (Z.neg p) <= q + 1 /\
  ((Z.pos m * 100) mod d = 0 -> Py.round_half_even_scaled m (Z.neg p) = q).
Proof.
  intros d q. unfold Py.round_half_even_scaled. fold d. fold q.
  assert (0 < d) as Hd by (subst d; rewrite Z.pow_pos_fold; lia).
  split.
  - destruct (2 * _ ?= d); [destruct (Z.even q)| |]; lia.
  - intros ->. change (2 * 0) with 0.
    destruct (Z.compare_spec 0 d); lia.
Qed.

(** The scaled rounding of a value that is at most 100 is at most 10000. *)
Lemma round_half_even_scaled_le m p :
  Z.pos m * 100 <= 10000 * Z.pow_pos 2 p ->
  0 <= Py.round_half_even_scaled m (Z.neg p) <= 10000.
Proof.
  intros H.
  pose proof (round_half_even_scaled_bounds m p) as [[H1 H2] H3].
  set (d := Z.pow_pos 2 p) in *.
  assert (0 < d) as Hd by (subst d; rewrite Z.pow_pos_fold; lia).
  set (q := Z.pos m * 100 / d) in *.
  assert (0 <= q) as Hq0 by (apply Z.div_pos; lia).
  assert (q <= 10000) as Hq.
  { subst q. apply Z.div_le_upper_bound; lia. }
  split; [lia|].
  destruct (Z.eq_dec q 10000) as [Heq|Hne]; [|lia].
  rewrite H3; [lia|].
  pose proof (Z.div_mod (Z.pos m * 100) d ltac:(lia)) as Hdm.
  pose proof (Z.mod_pos_bound (Z.pos m * 100) d Hd) as Hr.
  fold q in Hdm. lia.
Qed.

Lemma all_upto_spec f N :
  all_upto f (Z.to_nat N) = true -> forall n, 0 <= n <= N -> f n = true.
Proof.
  intros H n Hn. revert H.
  assert (exists k, Z.to_nat N = k /\ n <= Z.of_nat k) as (k & -> & Hk)
    by (eexists; split; [reflexivity|lia]).
  destruct Hn as [Hn _]. revert n Hn Hk.
  induction k as [|k IH]; simpl; intros n Hn Hk H.
  - replace n with 0 by lia. exact H.
  - apply andb_prop in H as [H1 H2].
    destruct (Z.eq_dec n (Z.of_nat (S k))) as [->|Hne]; [exact H1|].
    apply IH; [lia|lia|exact H2].
Qed.

Lemma round2_of_range_all : all_upto round2_in_range (Z.to_nat 10000) = true.
Proof. vm_compute. reflexivity. Qed.

Lemma round2_of_range n : 0 <= n <= 10000 -> in_0_100 (round2_of n).
Proof.
  intros Hn.
  pose proof (all_upto_spec round2_in_range 10000 round2_of_range_all n Hn) as H.
  unfold round2_in_range, in_0_100b in H.
  apply andb_prop in H. exact H.
Qed.

Lemma round2_range t :
  ge0 t -> (100 <? t)%float = false -> in_0_100 (Py.round2 t).
Proof.
  unfold ge0. intros Hs Hlt.
  pose proof (Prim2SF_valid t) as Hv.
  rewrite ltb_spec in Hlt.
  change (Prim2SF 100) with (S754_finite false 7036874417766400 (-46)) in Hlt.
  unfold Py.round2.
  destruct (Prim2SF t) as [s|s| |s m e] eqn:E; simpl in Hs; try tauto;
    try subst s.
  - unfold in_0_100. rewrite !leb_spec, E. destruct s; split; reflexivity.
  - discriminate Hlt.
  - apply valid_mantissa_lt in Hv.
    unfold SFltb, SFcompare in Hlt.
    assert (e < -46 \/ e = -46 /\ Z.pos m <= 7036874417766400) as He.
    { destruct (Z.compare_spec (-46) e) as [Heq|Hl|Hg]; try discriminate;
        [|lia].
      right. split; [lia|].
      destruct (Pos.compare_cont Eq 7036874417766400 m) eqn:Ec; try discriminate.
      - apply Pos.compare_eq in Ec. subst m. reflexivity.
      - apply Pos.compare_gt_iff, Pos2Z.pos_lt_pos in Ec.
        apply Z.lt_le_incl, Ec. }
    clear Hlt.
    destruct e as [|p|p]; try lia.
    assert (Z.pos m * 100 <= 10000 * Z.pow_pos 2 p) as Hb.
    { rewrite Z.pow_pos_fold.
      destruct He as [He|[He Hm]].
      - assert (2 ^ 47 <= 2 ^ Z.pos p) by (apply Z.pow_le_mono_r; lia). lia.
      - injection He as ->. lia. }
    pose proof (round_half_even_scaled_le m p Hb) as Hn.
    pose proof (round2_of_range _ Hn) as Hr.
    unfold round2_of in Hr.
    destruct (Py.round_half_even_scaled m (Z.neg p)); exact Hr.
Qed.

(** *** Small integers convert to finite doubles *)

Lemma shr_1_le mrs : 0 <= shr_m mrs -> shr_m (shr_1 mrs) <= shr_m mrs.
Proof.
  destruct mrs as [m r s]; simpl. intros Hm.
  destruct m as [|p|p]; [simpl; lia| |lia].
  destruct p; simpl; lia.
Qed.

Lemma iter_pos_shr_1_le p : forall mrs,
  0 <= shr_m mrs -> shr_m (SpecFloat.iter_pos shr_1 p mrs) <= shr_m mrs.
Proof.
  induction p as [p IH|p IH|]; intros mrs Hm; simpl.
  - pose proof (shr_1_nonneg mrs Hm) as H1.
    pose proof (shr_1_le mrs Hm) as H1'.
    pose proof (iter_pos_shr_1_nonneg p _ H1) as H2.
    pose proof (IH _ H1) as H2'.
    pose proof (IH _ H2). lia.
  - pose proof (iter_pos_shr_1_nonneg p _ Hm) as H2.
    pose proof (IH _ Hm) as H2'.
    pose proof (IH _ H2). lia.
  - apply shr_1_le, Hm.
Qed.

Lemma shr_fexp_le m e l :
  0 <= m -> shr_m (shr_fexp prec emax m e l).1 <= m.
Proof.
  intros Hm. unfold shr_fexp, shr.
  destruct (fexp prec emax (Zdigits2 m + e) - e) as [|p|p]; simpl;
    rewrite ?shr_record_of_loc_m; try lia.
  etransitivity; [apply iter_pos_shr_1_le|];
    rewrite shr_record_of_loc_m; lia.
Qed.

Lemma shr_fexp_exp m e l :
  (shr_fexp prec emax m e l).2 = Z.max e (fexp prec emax (Zdigits2 m + e)).
Proof.
  unfold shr_fexp, shr.
  destruct (fexp prec emax (Zdigits2 m + e) - e) as [|p|p] eqn:E; simpl; lia.
Qed.

Lemma fexp_le k : fexp prec emax k <= Z.max (k - 53) (-1074).
Proof. unfold fexp, SpecFloat.emin, prec, emax. lia. Qed.

Lemma Zdigits2_le m k : 0 <= k -> 0 <= m < 2 ^ k -> Zdigits2 m <= k.
Proof.
  intros Hk [Hm0 Hm]. destruct m as [|p|p]; simpl; try lia.
  pose proof (digits2_pos_le p) as H.
  assert (2 ^ (Z.pos (digits2_pos p) - 1) < 2 ^ k) as Hlt.
  { assert (2 ^ Z.pos (digits2_pos p)
            = 2 * 2 ^ (Z.pos (digits2_pos p) - 1)) as Heq.
    { rewrite <- Z.pow_succ_r by lia. f_equal. lia. }
    lia. }
  apply Z.pow_lt_mono_r_iff in Hlt; lia.
Qed.

Lemma binary_round_aux_finite s mx ex lx :
  0 <= mx < 2 ^ 64 -> ex <= 0 ->
  finite_sf (binary_round_aux prec emax s mx ex lx).
Proof.
  intros [Hm0 Hm] He. unfold binary_round_aux.
  pose proof (shr_fexp_nonneg mx ex lx Hm0) as H1.
  pose proof (shr_fexp_le mx ex lx Hm0) as H1'.
  pose proof (shr_fexp_exp mx ex lx) as E1.
  pose proof (fexp_le (Zdigits2 mx + ex)) as F1.
  pose proof (Zdigits2_le mx 64 ltac:(lia) ltac:(lia)) as D1.
  destruct (shr_fexp prec emax mx ex lx) as [mrs' e']. simpl in H1, H1', E1.
  set (m2 := round_nearest_even (shr_m mrs') (loc_of_shr_record mrs')).
  assert (0 <= m2 <= shr_m mrs' + 1) as Hm2.
  { subst m2. destruct (loc_of_shr_record mrs') as [|[]]; simpl; try lia.
    destruct (Z.even _); lia. }
  pose proof (shr_fexp_exp m2 e' loc_Exact) as E2.
  pose proof (fexp_le (Zdigits2 m2 + e')) as F2.
  assert (m2 < 2 ^ 65) as Hm2'.
  { change (2 ^ 65) with (2 * 2 ^ 64). lia. }
  pose proof (Zdigits2_le m2 65 ltac:(lia) ltac:(lia)) as D2.
  pose proof (shr_fexp_nonneg m2 e' loc_Exact ltac:(lia)) as H2.
  destruct (shr_fexp prec emax m2 e' loc_Exact) as [mrs'' e'']. simpl in *.
  destruct (shr_m mrs'') as [|p|p]; simpl; try exact I; try lia.
  assert ((e'' <=? emax - prec) = true) as ->; [|exact I].
  apply Z.leb_le. unfold emax, prec. lia.
Qed.

Lemma binary_normalize_finite z :
  0 <= z < 2 ^ 63 -> finite_sf (binary_normalize prec emax z 0 false).
Proof.
  intros [Hz0 Hz]. destruct z as [|p|p]; simpl; try exact I; try lia.
  unfold binary_round, shl_align.
  destruct (fexp prec emax (Z.pos (digits2_pos p) + 0) - 0) as [|d|d] eqn:E;
    try (apply binary_round_aux_finite; lia).
  apply binary_round_aux_finite.
  - fold (Zpower.shift_pos d p). rewrite Zpower.shift_pos_correct.
    rewrite Z.pow_pos_fold.
    pose proof (digits2_pos_gt p) as Hp.
    assert (Z.pos d + Z.pos (digits2_pos p) = 53) as Hd
      by (unfold fexp, SpecFloat.emin, prec, emax in E; lia).
    assert (2 ^ Z.pos d * 2 ^ Z.pos (digits2_pos p) = 2 ^ 53) as Hpow
      by (rewrite <- Z.pow_add_r, Hd by lia; reflexivity).
    assert (0 < 2 ^ Z.pos d) by (apply Z.pow_pos_nonneg; lia).
    split; [lia|].
    apply Z.lt_trans with (2 ^ 53); [|reflexivity].
    rewrite <- Hpow. apply Z.mul_lt_mono_pos_l; assumption.
  - unfold fexp, SpecFloat.emin, prec, emax in *. lia.
Qed.

Lemma float_of_int_spec z :
  0 <= z < 2 ^ 63 ->
  Prim2SF (Py.float_of_int z) = binary_normalize prec emax z 0 false.
Proof.
  intros Hz. unfold Py.float_of_int.
  pose proof (of_uint63_spec (Uint63.of_Z z)) as H.
  rewrite Uint63.of_Z_spec, Z.mod_small in H by exact Hz.
  rewrite <- H, SF2Prim_Prim2SF. reflexivity.
Qed.

(** [float(z)] is never NaN and is non-negative for [z >= 0]. *)
Lemma float_of_int_ge0 z : 0 <= z -> ge0 (Py.float_of_int z).
Proof.
  intros Hz. apply has_sign_ge0, SF2Prim_sign, binary_normalize_sign, Hz.
Qed.

Lemma float_of_int_finite z :
  0 <= z < 2 ^ 63 -> finite_sf (Prim2SF (Py.float_of_int z)).
Proof.
  intros Hz. rewrite float_of_int_spec by exact Hz.
  apply binary_normalize_finite, Hz.
Qed.

(** [a / b] on ints: never NaN for [b > 0], with the sign of [a]. *)
Lemma int_truediv_sign a p :
  exists s, has_sign s (Prim2SF (Py.int_truediv a (Z.pos p))).
Proof.
  unfold Py.int_truediv. destruct a as [|q|q]; simpl Py.Z2SF.
  - exists false. apply SF2Prim_sign. reflexivity.
  - exists false. apply SF2Prim_sign, (SFdiv_finite_sign false q 0 false p 0).
  - exists true. apply SF2Prim_sign, (SFdiv_finite_sign true q 0 false p 0).
Qed.

Lemma int_truediv_ge0 a p : 0 <= a -> ge0 (Py.int_truediv a (Z.pos p)).
Proof.
  intros Ha. unfold Py.int_truediv. apply has_sign_ge0, SF2Prim_sign.
  destruct a as [|q|q]; simpl Py.Z2SF; try lia.
  - reflexivity.
  - apply (SFdiv_finite_sign false q 0 false p 0).
Qed.


(** *** Comparisons against constants *)

(** [max(a, 1)] of a double that is not NaN is positive. *)
Lemma max2_1_pos a s :
  has_sign s (Prim2SF a) -> pos_sf (Prim2SF (Py.max2 a 1)).
Proof.
  unfold Py.max2. rewrite ltb_spec.
  change (Prim2SF 1) with (S754_finite false 4503599627370496 (-52)).
  intros Hs.
  destruct (SFltb _ _) eqn:Hlt.
  - change (Prim2SF 1) with (S754_finite false 4503599627370496 (-52)).
    exact I.
  - destruct (Prim2SF a) as [s'|s'| |s' m e]; simpl in Hs; try tauto;
      subst s'; destruct s; try discriminate Hlt; exact I.
Qed.

Lemma SFdiv_ge0 x y :
  ge0_sf x -> finite_sf x -> pos_sf y -> ge0_sf (SF64div x y).
Proof.
  destruct x as [sx|sx| |sx mx ex], y as [sy|sy| |sy my ey];
    intros Hx Hf Hy; simpl in Hx, Hf, Hy; try tauto;
    try destruct sy; try tauto; try exact I; subst.
  apply has_sign_ge0, (SFdiv_finite_sign false mx ex false my ey).
Qed.

Lemma div_ge0 x y :
  ge0 x -> finite_sf (Prim2SF x) -> pos_sf (Prim2SF y) -> ge0 (x / y)%float.
Proof. unfold ge0. rewrite div_spec. apply SFdiv_ge0. Qed.

(** Division of [+0.0] by a positive double. *)
Lemma zero_div_pos y : pos_sf (Prim2SF y) -> (0 / y)%float = 0%float.
Proof.
  intros Hy. apply Prim2SF_inj. rewrite div_spec.
  change (Prim2SF 0) with (S754_zero false).
  destruct (Prim2SF y) as [s|s| |s m e]; simpl in Hy; try tauto;
    destruct s; try tauto; reflexivity.
Qed.

Lemma min2_100_range x : ge0 x -> in_0_100 (Py.round2 (Py.min2 x 100)).
Proof.
  intros Hx. unfold Py.min2.
  destruct (100 <? x)%float eqn:E.
  - split; vm_compute; reflexivity.
  - apply round2_range; assumption.
Qed.

Lemma min2_ge0 x c : ge0 x -> ge0 c -> ge0 (Py.min2 x c).
Proof. intros Hx Hc. unfold Py.min2. destruct (c <? x)%float; assumption. Qed.

(** *** The density score *)

Lemma density_score_range self n :
  0 <= n < 2 ^ 63 -> in_0_100 (calculate_density_score self n).
Proof.
  intros Hn. unfold calculate_density_score.
  destruct (frame_area self =? 0); [split; reflexivity|].
  apply min2_100_range.
  apply (mul_pos_ge0 _ 100 7036874417766400 (-46)); [reflexivity|].
  apply (div_pos_ge0 _ 2 4503599627370496 (-51)); [reflexivity|].
  destruct (int_truediv_sign (frame_area self) 10000) as [s Hs].
  apply div_ge0.
  - apply float_of_int_ge0. lia.
  - apply float_of_int_finite, Hn.
  - eapply max2_1_pos, Hs.
Qed.

Lemma density_score_zero self : calculate_density_score self 0 = 0%float.
Proof.
  unfold calculate_density_score.
  destruct (frame_area self =? 0); [reflexivity|].
  destruct (int_truediv_sign (frame_area self) 10000) as [s Hs].
  change (Py.float_of_int 0) with 0%float.
  rewrite zero_div_pos by (eapply max2_1_pos, Hs).
  reflexivity.
Qed.

(** *** The risk score *)

Lemma risk_score_range count ds zones v :
  0 <= count -> ge0 ds -> ge0 v ->
  in_0_100 (score_of (classify_risk count ds zones v)).
Proof.
  intros Hc Hds Hv. unfold classify_risk, score_of.
  cbv beta zeta iota delta [fst snd].
  change (Py.float_of_int Config.ANOMALY_MOVEMENT_THRESHOLD) with 50%float.
  apply min2_100_range.
  repeat apply add_ge0.
  - exact I.
  - apply (mul_pos_ge0 _ 0.4 7205759403792794 (-54)); [reflexivity|exact Hds].
  - apply float_of_int_ge0. lia.
  - apply min2_ge0; [|vm_compute; reflexivity].
    apply (mul_pos_ge0 _ 20 5629499534213120 (-48)); [reflexivity|].
    apply (div_pos_ge0 _ _ 7036874417766400 (-47)); [reflexivity|exact Hv].
  - apply min2_ge0; [|vm_compute; reflexivity].
    apply (mul_pos_ge0 _ 10 5629499534213120 (-49)); [reflexivity|].
    apply (int_truediv_ge0 count 100 Hc).
Qed.

(** *** The capped total *)

Lemma SFadd_sign_false x y :
  has_sign false x -> ge0_sf y -> has_sign false (SF64add x y).
Proof.
  destruct x as [sx|sx| |sx mx ex], y as [sy|sy| |sy my ey];
    intros Hx Hy; simpl in Hx, Hy; try tauto; subst;
    try reflexivity.
  - destruct sy; reflexivity.
  - unfold SF64add, SFadd. simpl cond_Zopp.
    apply binary_normalize_sign. lia.
Qed.

Lemma add_sign_false x y :
  has_sign false (Prim2SF x) -> ge0 y -> has_sign false (Prim2SF (x + y)).
Proof. unfold ge0. rewrite add_spec. apply SFadd_sign_false. Qed.

Lemma velocity_factor_ge0 v : ge0 v -> ge0 (Spec.velocity_factor v).
Proof.
  intros Hv. unfold Spec.velocity_factor.
  change (Py.float_of_int Config.ANOMALY_MOVEMENT_THRESHOLD) with 50%float.
  apply min2_ge0; [|vm_compute; reflexivity].
  apply (mul_pos_ge0 _ 20 5629499534213120 (-48)); [reflexivity|].
  apply (div_pos_ge0 _ _ 7036874417766400 (-47)); [reflexivity|exact Hv].
Qed.

Lemma count_factor_ge0 count : 0 <= count -> ge0 (Spec.count_factor count).
Proof.
  intros Hc. unfold Spec.count_factor.
  apply min2_ge0; [|vm_compute; reflexivity].
  apply (mul_pos_ge0 _ 10 5629499534213120 (-49)); [reflexivity|].
  apply (int_truediv_ge0 count 100 Hc).
Qed.

Lemma factor_sum_sign count ds zones v :
  0 <= count -> ge0 ds -> ge0 v ->
  has_sign false (Prim2SF (Spec.factor_sum count ds zones v)).
Proof.
  intros Hc Hds Hv. unfold Spec.factor_sum.
  repeat apply add_sign_false.
  - reflexivity.
  - apply (mul_pos_ge0 _ 0.4 7205759403792794 (-54)); [reflexivity|exact Hds].
  - apply float_of_int_ge0. lia.
  - apply velocity_factor_ge0, Hv.
  - apply count_factor_ge0, Hc.
Qed.

(** [max(0, t)] leaves a non-negative double as it is. *)
Lemma max2_0_id t : has_sign false (Prim2SF t) -> Py.max2 0 t = t.
Proof.
  intros Ht. unfold Py.max2.
  destruct (0 <? t)%float eqn:E; [reflexivity|].
  rewrite ltb_spec in E.
  change (Prim2SF 0) with (S754_zero false) in E.
  apply Prim2SF_inj.
  change (Prim2SF 0) with (S754_zero false).
  destruct (Prim2SF t) as [s|s| |s m e]; simpl in Ht; try tauto; subst s;
    try discriminate E; reflexivity.
Qed.

Lemma min2_100_capped x : (100 <? Py.min2 x 100)%float = false.
Proof.
  unfold Py.min2. destruct (100 <? x)%float eqn:E; [reflexivity|exact E].
Qed.

Lemma min2_100_sign x :
  has_sign false (Prim2SF x) -> has_sign false (Prim2SF (Py.min2 x 100)).
Proof.
  intros Hx. unfold Py.min2. destruct (100 <? x)%float; [reflexivity|exact Hx].
Qed.

(** ** The claims *)

(** C1 (code defect).  On a frame of 100 x 200 pixels, which is 2 square
    meters at 10000 pixels per square meter, one person is a density of 0.5
    people per square meter and [calculate_density_score] returns 25, not the
    50 that the comment in the source and the claim give; four persons, 2
    people per square meter, give 100. *)
Theorem C1_half_person_per_sqm_scores_25 :
  let self := init (100, 200) in
  Py.int_truediv (frame_area self) 10000 = 2%float /\
  (Py.float_of_int 1 / Py.max2 (Py.int_truediv (frame_area self) 10000) 1)%float
    = 0.5%float /\
  calculate_density_score self 1 = 25%float /\
  calculate_density_score self 4 = 100%float.
Proof. vm_compute. repeat split. Qed.

(** C2, the claim as stated fails.  With density score 62.49 and nothing else
    the total is 24.996: the code answers Low together with the rounded score
    25.0, where the thresholds applied to the returned score give Medium.
    With density score -10 the code returns -4.0, where a clamp to [0, 100]
    gives 0.0. *)
Lemma C2_level_precedes_rounding :
  classify_risk 0 62.49 [] 0 = (LOW, 25%float, NORMAL) /\
  level_of_result (classify_risk 0 62.49 [] 0)
    <> Spec.risk_level_claimed 0 62.49 [] 0 /\
  score_of (classify_risk 0 (-10) [] 0) = (-4)%float /\
  Spec.risk_score_claimed 0 (-10) [] 0 = 0%float.
Proof. vm_compute. repeat split. discriminate. Qed.

(** C2, amended.  For every input, [classify_risk] adds the four factors,
    caps the total with [min(total, 100)], takes the risk level from this
    capped total before it is rounded (below 25 Low, below 50 Medium, below
    75 High, otherwise Critical) and returns the capped total rounded to two
    decimals.  There is no lower clamp; for a count, a density score and a
    velocity that are not negative the capped total equals
    [clamp(total, 0, 100)]. *)
Theorem C2_risk_score_and_level count ds zones v :
  let r := classify_risk count ds zones v in
  let t := Spec.capped_sum count ds zones v in
  score_of r = Py.round2 t /\
  level_of_result r = Spec.level_of t /\
  (100 <? t)%float = false /\
  (0 <= count -> (0 <=? ds)%float = true -> (0 <=? v)%float = true ->
   t = Spec.clamp (Spec.factor_sum count ds zones v) 0 100).
Proof.
  intros r t. repeat split.
  - apply min2_100_capped.
  - intros Hc Hds Hv. unfold Spec.clamp. symmetry. apply max2_0_id.
    apply min2_100_sign, factor_sum_sign; [exact Hc| |]; apply leb0_ge0;
      assumption.
Qed.

Lemma C2_risk_score_and_level_witness :
  Spec.capped_sum 5 2.71 [] 0
  = Spec.clamp (Spec.factor_sum 5 2.71 [] 0) 0 100.
Proof.
  apply (C2_risk_score_and_level 5 2.71 [] 0); [lia|reflexivity|reflexivity].
Defined.

(** C3.  For every input the anomaly type returned by [classify_risk] is the
    first match of the chain "velocity above the threshold: sudden movement;
    more than 3 zones: high density; density score above 70: clustering;
    otherwise normal", replaced by rush behavior whenever the computed risk
    level is Critical. *)
Theorem C3_anomaly_chain_then_override count ds zones v :
  let r := classify_risk count ds zones v in
  anomaly_of_result r
  = Spec.anomaly_of (level_of_result r) (Spec.anomaly_chain ds zones v).
Proof.
  intros r. subst r. unfold classify_risk, anomaly_of_result, level_of_result.
  cbv beta zeta iota delta [fst snd Spec.anomaly_of Spec.anomaly_chain].
  assert ((3 <? Z.of_nat (length zones)) = (3 <? length zones)%nat) as ->.
  { destruct (Z.ltb_spec 3 (Z.of_nat (length zones))),
      (Nat.ltb_spec 3 (length zones)); try reflexivity; lia. }
  reflexivity.
Qed.

(** The metrics of a frame without detections. *)
Lemma classify_risk_empty :
  classify_risk 0 0 [] 0 = (LOW, 0%float, NORMAL).
Proof. vm_compute. reflexivity. Qed.

Lemma calculate_movement_empty self time_delta :
  calculate_movement self [] time_delta
  = Ok (0%float, set_previous_positions self []).
Proof.
  unfold calculate_movement. destruct (previous_positions self); reflexivity.
Qed.

Lemma analyze_empty `{Sklearn} self ts time_delta :
  analyze self [] ts time_delta
  = Ok ({| total_count := 0;
           density_score := 0;
           risk_level := LOW;
           risk_score := 0;
           anomaly_type := NORMAL;
           high_density_zones := [];
           clusters := [];
           avg_velocity := 0;
           metrics_frame_area := frame_area self;
           timestamp := ts |},
        set_previous_positions self []).
Proof.
  unfold analyze.
  change (Z.of_nat (length [])) with 0.
  change (if 0 <? 0 then map det_center [] else []) with (@nil point).
  rewrite density_score_zero.
  change (detect_high_density_zones self []) with (@Ok (list DensityZone) []).
  change (detect_clusters []) with (@nil Cluster).
  cbv beta iota delta [mbind result_bind].
  rewrite calculate_movement_empty, classify_risk_empty.
  reflexivity.
Qed.

(** C5.  For every analyzer state, timestamp and time delta, [analyze] on an
    empty detection list raises nothing and returns density score 0, no
    zones, no clusters, velocity 0, risk score 0, level Low and anomaly
    Normal; the stored positions become the empty list. *)
Theorem C5_empty_detections `{Sklearn} self ts time_delta :
  analyze self [] ts time_delta
  = Ok ({| total_count := 0;
           density_score := 0;
           risk_level := LOW;
           risk_score := 0;
           anomaly_type := NORMAL;
           high_density_zones := [];
           clusters := [];
           avg_velocity := 0;
           metrics_frame_area := frame_area self;
           timestamp := ts |},
        set_previous_positions self []).
Proof. apply analyze_empty. Qed.

(** C6.  On a fresh analyzer for a 720 x 1280 frame, with grid size 50, zone
    threshold 5 and minimum cluster size 10, the first [analyze] call on five
    detections centered at (100,100), (120,105), (105,120), (600,400),
    (605,405) returns density score 2.71, no zones, no clusters, velocity
    0.0, risk score 1.58, level Low and anomaly Normal. *)
Theorem C6_first_call_scenario `{Sklearn} detections ts time_delta :
  map det_center detections = scenario_centers ->
  grid_size (init (720, 1280)) = 50 /\
  Config.HIGH_DENSITY_THRESHOLD = 5 /\
  Config.MIN_CLUSTER_SIZE = 10 /\
  exists m self',
    analyze (init (720, 1280)) detections ts time_delta = Ok (m, self') /\
    density_score m = 2.71%float /\
    high_density_zones m = [] /\
    clusters m = [] /\
    avg_velocity m = 0%float /\
    risk_score m = 1.58%float /\
    risk_level m = LOW /\
    anomaly_type m = NORMAL.
Proof.
  intros Hc. repeat split.
  assert (length detections = 5%nat) as Hlen.
  { rewrite <- (length_map det_center), Hc. reflexivity. }
  unfold analyze. rewrite Hlen, Hc.
  vm_compute. eexists _, _. repeat split.
Qed.

Lemma C6_first_call_scenario_witness :
  exists m self',
    @analyze all_noise (init (720, 1280)) fake_detections
      "2025-11-20T10:00:00" default_time_delta = Ok (m, self') /\
    density_score m = 2.71%float /\
    high_density_zones m = [] /\
    clusters m = [] /\
    avg_velocity m = 0%float /\
    risk_score m = 1.58%float /\
    risk_level m = LOW /\
    anomaly_type m = NORMAL.
Proof.
  apply (@C6_first_call_scenario all_noise fake_detections
           "2025-11-20T10:00:00" default_time_delta).
  reflexivity.
Defined.

(** C7, the claim as stated fails: a negative velocity makes the risk score
    negative.  With no detections, density score 0, no zones and velocity
    -1000 the score is -400. *)
Lemma C7_negative_velocity :
  score_of (classify_risk 0 (calculate_density_score (init (720, 1280)) 0)
              [] (-1000)) = (-400)%float /\
  ~ in_0_100
      (score_of (classify_risk 0 (calculate_density_score (init (720, 1280)) 0)
                   [] (-1000))).
Proof.
  split; [vm_compute; reflexivity|].
  intros [H _]. vm_compute in H. discriminate H.
Qed.

(** C7, amended.  For every analyzer state and every detection count (a list
    length, below 2^63) the density score lies in [0, 100]; for every count
    and density score that are not negative, every zone list and every
    velocity that is not negative, the risk score lies in [0, 100]. *)
Theorem C7_scores_in_range self (n : nat) count ds zones v :
  Z.of_nat n < 2 ^ 63 ->
  0 <= count ->
  (0 <=? ds)%float = true ->
  (0 <=? v)%float = true ->
  in_0_100 (calculate_density_score self (Z.of_nat n)) /\
  in_0_100 (score_of (classify_risk count ds zones v)) /\
  in_0_100 (score_of (classify_risk (Z.of_nat n)
                        (calculate_density_score self (Z.of_nat n)) zones v)).
Proof.
  intros Hn Hc Hds Hv.
  pose proof (density_score_range self (Z.of_nat n) ltac:(lia)) as Hd.
  repeat split; try apply Hd.
  all: apply risk_score_range; try lia; try (apply leb0_ge0; assumption).
  all: apply leb0_ge0, Hd.
Qed.

Lemma C7_scores_in_range_witness :
  in_0_100 (calculate_density_score (init (720, 1280)) 5) /\
  in_0_100 (score_of (classify_risk 5 2.71 [] 20)) /\
  in_0_100 (score_of (classify_risk 5
                        (calculate_density_score (init (720, 1280)) 5) [] 20)).
Proof.
  apply (C7_scores_in_range (init (720, 1280)) 5 5 2.71 [] 20);
    [reflexivity|lia|reflexivity|reflexivity].
Defined.

(** C9 (code defect).  A frame 40 pixels high has no grid row
    ([40 // 50 = 0]); the clamp [min(int(y / grid_size), grid_h - 1)] then
    yields row -1 of an array without rows, and [analyze] on one person at
    (100, 10) ends with IndexError. *)
Theorem C9_low_frame_raises_IndexError `{Sklearn} ts time_delta :
  floordiv (frame_height (init (40, 1280))) (grid_size (init (40, 1280)))
    = Ok 0 /\
  detect_high_density_zones (init (40, 1280)) [(100, 10)] = Raise IndexError /\
  analyze (init (40, 1280)) [low_frame_detection] ts time_delta
    = Raise IndexError.
Proof. repeat split. Qed.

(** ** The stable sort of the cluster list *)

Lemma insert_by_size_Forall (P : Cluster -> Prop) c cs :
  P c -> Forall P cs -> Forall P (insert_by_size c cs).
Proof.
  intros Hc Hcs. induction Hcs as [|d rest Hd Hrest IH]; simpl.
  - repeat constructor; assumption.
  - destruct (size c <? size d); repeat constructor; assumption.
Qed.

Lemma insert_by_size_sorted c cs :
  StronglySorted size_ge cs -> StronglySorted size_ge (insert_by_size c cs).
Proof.
  induction 1 as [|d rest Hsorted IH Hd]; simpl.
  - repeat constructor.
  - destruct (Z.ltb_spec (size c) (size d)) as [Hlt|Hge].
    + constructor; [exact IH|].
      apply insert_by_size_Forall; [unfold size_ge; lia|exact Hd].
    + constructor; [constructor; assumption|].
      constructor; [exact Hge|].
      eapply Forall_impl; [|exact Hd].
      unfold size_ge. intros x Hx. lia.
Qed.

Lemma sort_by_size_desc_sorted cs :
  StronglySorted size_ge (sort_by_size_desc cs).
Proof.
  induction cs as [|c cs IH]; simpl.
  - constructor.
  - apply insert_by_size_sorted, IH.
Qed.

Lemma insert_by_size_of_size s c cs :
  of_size s (insert_by_size c cs) = of_size s (c :: cs).
Proof.
  unfold of_size. induction cs as [|d rest IH]; simpl; [reflexivity|].
  destruct (Z.ltb_spec (size c) (size d)) as [Hlt|Hge]; [|reflexivity].
  rewrite filter_cons, IH, !filter_cons.
  destruct (decide (size d = s)), (decide (size c = s));
    try reflexivity; lia.
Qed.

Lemma sort_by_size_desc_of_size s cs :
  of_size s (sort_by_size_desc cs) = of_size s cs.
Proof.
  induction cs as [|c cs IH]; simpl; [reflexivity|].
  rewrite insert_by_size_of_size. unfold of_size in *.
  rewrite !filter_cons, IH. reflexivity.
Qed.

Lemma insert_by_size_perm c cs : insert_by_size c cs ≡ₚ c :: cs.
Proof.
  induction cs as [|d rest IH]; simpl; [reflexivity|].
  destruct (size c <? size d); [|reflexivity].
  rewrite IH. apply Permutation_swap.
Qed.

Lemma sort_by_size_desc_perm cs : sort_by_size_desc cs ≡ₚ cs.
Proof.
  induction cs as [|c cs IH]; simpl; [reflexivity|].
  rewrite insert_by_size_perm, IH. reflexivity.
Qed.

Lemma detect_clusters_sort `{Sklearn} centers :
  detect_clusters centers = sort_by_size_desc (encounter_order centers).
Proof.
  unfold detect_clusters, encounter_order.
  destruct (Z.of_nat (length centers) <? Config.MIN_CLUSTER_SIZE); reflexivity.
Qed.

(** C8.  For every list of centers (and every labelling by DBSCAN and every
    iteration order of the label set) the list returned by [detect_clusters]
    is sorted by size in descending order, holds the clusters that were
    built, and keeps the clusters of each size in the order in which the loop
    met them. *)
Theorem C8_clusters_sorted_by_size_stable `{Sklearn} centers :
  StronglySorted size_ge (detect_clusters centers) /\
  detect_clusters centers ≡ₚ encounter_order centers /\
  forall s,
    of_size s (detect_clusters centers) = of_size s (encounter_order centers).
Proof.
  rewrite detect_clusters_sort. split; [|split].
  - apply sort_by_size_desc_sorted.
  - apply sort_by_size_desc_perm.
  - intros s. apply sort_by_size_desc_of_size.
Qed.

(** ** The order of doubles and the minimum of numpy *)

Lemma SFltb_key x y :
  x <> S754_nan -> y <> S754_nan ->
  (SFltb x y = true <-> key_lt (sf_key x) (sf_key y)).
Proof.
  intros Hx Hy. unfold SFltb, SFcompare, key_lt.
  destruct x as [sx|sx| |sx mx ex], y as [sy|sy| |sy my ey];
    try congruence; try destruct sx; try destruct sy; simpl;
    try (split; [discriminate|lia]); try (split; [lia|reflexivity]).
  all: rewrite ?Pos.compare_cont_spec; simpl.
  all: destruct (Z.compare_spec ex ey) as [He|He|He];
    destruct (Pos.compare_spec mx my) as [Hm|Hm|Hm]; simpl;
    split; intros H; try discriminate H; try reflexivity; try lia.
Qed.

Lemma sf_nan_dec (x : spec_float) : {x = S754_nan} + {x <> S754_nan}.
Proof. destruct x; try (right; discriminate); left; reflexivity. Qed.

Lemma SFltb_nan_r x : SFltb x S754_nan = false.
Proof. destruct x as [s|s| |s m e]; reflexivity. Qed.

Lemma SFltb_nan_l x : SFltb S754_nan x = false.
Proof. reflexivity. Qed.

Lemma SFltb_irrefl x : SFltb x x = false.
Proof.
  destruct (sf_nan_dec x) as [->|Hx]; [reflexivity|].
  destruct (SFltb x x) eqn:E; [|reflexivity].
  apply SFltb_key in E; try assumption. unfold key_lt in E. lia.
Qed.

Lemma SFltb_asym x y : SFltb x y = true -> SFltb y x = false.
Proof.
  intros H.
  destruct (sf_nan_dec x) as [->|Hx]; [discriminate H|].
  destruct (sf_nan_dec y) as [->|Hy];
    [rewrite SFltb_nan_r in H; discriminate H|].
  apply SFltb_key in H; try assumption.
  destruct (SFltb y x) eqn:E; [|reflexivity].
  apply SFltb_key in E; try assumption. unfold key_lt in *. lia.
Qed.

(** What is not below a double that is not NaN is not below anything that
    double is not above. *)
Lemma SFltb_neg_trans y a x :
  a <> S754_nan -> SFltb y a = false -> SFltb a x = false ->
  SFltb y x = false.
Proof.
  intros Ha Hya Hax.
  destruct (sf_nan_dec x) as [->|Hx]; [apply SFltb_nan_r|].
  destruct (sf_nan_dec y) as [->|Hy]; [reflexivity|].
  destruct (SFltb y x) eqn:E; [|reflexivity].
  apply SFltb_key in E; try assumption.
  assert (~ key_lt (sf_key y) (sf_key a)) as N1
    by (intros K; apply (proj2 (SFltb_key _ _ Hy Ha)) in K; congruence).
  assert (~ key_lt (sf_key a) (sf_key x)) as N2
    by (intros K; apply (proj2 (SFltb_key _ _ Ha Hx)) in K; congruence).
  unfold key_lt in *. lia.
Qed.

Lemma is_nan_false x : is_nan x = false -> Prim2SF x <> S754_nan.
Proof.
  unfold is_nan. rewrite FloatAxioms.eqb_spec. intros H E. rewrite E in H.
  discriminate H.
Qed.

Lemma is_nan_true x : is_nan x = true -> Prim2SF x = S754_nan.
Proof.
  unfold is_nan. rewrite FloatAxioms.eqb_spec. unfold SFeqb, SFcompare.
  destruct (Prim2SF x) as [s|s| |s m e]; try reflexivity;
    try (destruct s; discriminate).
  rewrite Z.compare_refl, Pos.compare_cont_refl.
  destruct s; discriminate.
Qed.

(** One step of the reduction keeps the invariant "the accumulator is one of
    the values seen and none of them is below it". *)
Lemma np_minimum_step (seen : list float) acc x :
  acc ∈ seen ->
  (forall y, y ∈ seen -> (y <? acc)%float = false) ->
  Py.np_minimum acc x ∈ seen ++ [x] /\
  forall y, y ∈ seen ++ [x] -> (y <? Py.np_minimum acc x)%float = false.
Proof.
  intros Hin Hmin. unfold Py.np_minimum.
  destruct (acc <? x)%float eqn:Hlt; simpl.
  - split; [apply elem_of_app; left; exact Hin|].
    intros y Hy. apply elem_of_app in Hy as [Hy|Hy]; [auto|].
    apply list_elem_of_singleton in Hy as ->.
    rewrite ltb_spec in *. apply SFltb_asym, Hlt.
  - destruct (is_nan acc) eqn:Hnan.
    + split; [apply elem_of_app; left; exact Hin|].
      intros y Hy. apply elem_of_app in Hy as [Hy|Hy]; [auto|].
      apply list_elem_of_singleton in Hy as ->.
      rewrite ltb_spec, (is_nan_true _ Hnan). apply SFltb_nan_r.
    + split; [apply elem_of_app; right; apply list_elem_of_singleton;
              reflexivity|].
      intros y Hy. rewrite ltb_spec.
      apply elem_of_app in Hy as [Hy|Hy].
      * apply (SFltb_neg_trans _ (Prim2SF acc));
          [apply is_nan_false, Hnan|rewrite <- ltb_spec; auto|
           rewrite <- ltb_spec; exact Hlt].
      * apply list_elem_of_singleton in Hy as ->. apply SFltb_irrefl.
Qed.

Lemma fold_np_minimum_spec ds : forall (seen : list float) acc,
  acc ∈ seen ->
  (forall y, y ∈ seen -> (y <? acc)%float = false) ->
  fold_left Py.np_minimum ds acc ∈ seen ++ ds /\
  forall y, y ∈ seen ++ ds ->
    (y <? fold_left Py.np_minimum ds acc)%float = false.
Proof.
  induction ds as [|x ds IH]; intros seen acc Hin Hmin; simpl.
  - rewrite app_nil_r. auto.
  - destruct (np_minimum_step seen acc x Hin Hmin) as [H1 H2].
    specialize (IH (seen ++ [x]) _ H1 H2).
    rewrite <- app_assoc in IH. exact IH.
Qed.

(** [arr.min()] is an entry of the array and no entry is below it. *)
Lemma np_min_spec d ds :
  Py.np_min d ds ∈ d :: ds /\
  forall y, y ∈ d :: ds -> (y <? Py.np_min d ds)%float = false.
Proof.
  apply (fold_np_minimum_spec ds [d] d);
    [apply list_elem_of_singleton; reflexivity|].
  intros y Hy. apply list_elem_of_singleton in Hy as ->.
  rewrite ltb_spec. apply SFltb_irrefl.
Qed.

Lemma nearest_distance_nearest dist previous p d :
  Spec.nearest_distance dist previous p = Some d ->
  Spec.nearest_at dist previous p d.
Proof.
  unfold Spec.nearest_distance, Spec.nearest_at.
  destruct (map (dist p) previous) as [|d0 ds] eqn:E; [discriminate|].
  intros [= <-].
  destruct (np_min_spec d0 ds) as [Hin Hmin]. rewrite <- E in Hin, Hmin.
  split.
  - apply list_elem_of_fmap in Hin as (q & Hq1 & Hq2). eauto.
  - intros q Hq. apply Hmin, list_elem_of_fmap. eauto.
Qed.

(** ** numpy's summation *)

(** The depth bound of [pairwise_sum] is never reached: every bound from
    the length of the array on gives the same sum. *)
Lemma pairwise_sum_depth d : forall d' a,
  (length a <= d)%nat -> (length a <= d')%nat ->
  Py.pairwise_sum d a = Py.pairwise_sum d' a.
Proof.
  induction d as [|d IH]; intros [|d'] a Hd Hd'; cbn [Py.pairwise_sum];
    try reflexivity.
  - destruct a; [reflexivity|simpl in Hd; lia].
  - destruct a; [reflexivity|simpl in Hd'; lia].
  - destruct (Nat.ltb_spec 128 (length a)) as [Hn|Hn]; [|reflexivity].
    set (n := length a) in *. set (m := (n / 2)%nat).
    pose proof (Nat.div_mod_eq n 2) as E2.
    pose proof (Nat.mod_upper_bound n 2 ltac:(lia)) as B2.
    pose proof (Nat.div_mod_eq m 8) as E8.
    pose proof (Nat.mod_upper_bound m 8 ltac:(lia)) as B8.
    fold m in E2.
    assert (length (take (m - m mod 8) a) <= d
            /\ length (take (m - m mod 8) a) <= d')%nat as [H1 H1']
      by (rewrite length_take; fold n; lia).
    assert (length (drop (m - m mod 8) a) <= d
            /\ length (drop (m - m mod 8) a) <= d')%nat as [H2 H2']
      by (rewrite length_drop; fold n; lia).
    rewrite (IH d' _ H1 H1'), (IH d' _ H2 H2'). reflexivity.
Qed.

Section SumClosed.

(** A property of doubles that addition keeps is kept by the sum. *)
Variable P : float -> Prop.
Hypothesis P_add : forall x y, P x -> P y -> P (x + y)%float.

Lemma fold_add_closed a : forall acc,
  P acc -> Forall P a -> P (fold_left PrimFloat.add a acc).
Proof.
  induction a as [|v a IH]; intros acc Ha Hv; simpl; [exact Ha|].
  apply List.Forall_cons_iff in Hv as [Hv Hvs].
  apply IH; [apply P_add; assumption|exact Hvs].
Qed.

Lemma unrolled_closed n : forall a r0 r1 r2 r3 r4 r5 r6 r7,
  (length a <= n)%nat ->
  P r0 -> P r1 -> P r2 -> P r3 -> P r4 -> P r5 -> P r6 -> P r7 ->
  Forall P a ->
  lanes_all P (Py.unrolled r0 r1 r2 r3 r4 r5 r6 r7 a).
Proof.
  induction n as [|n IH]; intros a r0 r1 r2 r3 r4 r5 r6 r7 Hn
    H0 H1 H2 H3 H4 H5 H6 H7 Ha.
  - destruct a; [|simpl in Hn; lia]. cbn. tauto.
  - destruct a as [|b0 [|b1 [|b2 [|b3 [|b4 [|b5 [|b6 [|b7 rest]]]]]]]];
      try (cbn [Py.unrolled lanes_all]; tauto).
    cbn [Py.unrolled].
    repeat (apply List.Forall_cons_iff in Ha as [? Ha]).
    apply IH; try (apply P_add; assumption); [|exact Ha].
    simpl in Hn. lia.
Qed.

Lemma block_sum_closed a : P 0%float -> Forall P a -> P (Py.block_sum a).
Proof.
  intros H0 Ha. unfold Py.block_sum.
  destruct a as [|b0 [|b1 [|b2 [|b3 [|b4 [|b5 [|b6 [|b7 rest]]]]]]]];
    try (apply fold_add_closed; assumption).
  repeat (apply List.Forall_cons_iff in Ha as [? Ha]).
  pose proof (unrolled_closed (length rest) rest b0 b1 b2 b3 b4 b5 b6 b7
                (le_n _)) as Hl.
  destruct (Py.unrolled b0 b1 b2 b3 b4 b5 b6 b7 rest)
    as [[[[[[[[r0 r1] r2] r3] r4] r5] r6] r7] tail].
  cbn [lanes_all] in Hl.
  destruct Hl as (?&?&?&?&?&?&?&?&?); try assumption.
  apply fold_add_closed; [|assumption].
  repeat apply P_add; assumption.
Qed.

Lemma pairwise_sum_closed d : forall a,
  P 0%float -> Forall P a -> P (Py.pairwise_sum d a).
Proof.
  induction d as [|d IH]; intros a H0 Ha; cbn [Py.pairwise_sum].
  - apply block_sum_closed; assumption.
  - destruct (128 <? length a)%nat; [|apply block_sum_closed; assumption].
    apply P_add; apply IH; try assumption;
      [apply Forall_take|apply Forall_drop]; exact Ha.
Qed.

Lemma np_sum_closed a : P 0%float -> Forall P a -> P (Py.np_sum a).
Proof.
  intros H0 Ha. unfold Py.np_sum.
  apply P_add; [exact H0|apply pairwise_sum_closed; assumption].
Qed.

End SumClosed.

(** ** The motion estimator *)

Lemma matched_velocity_no_previous time_delta current :
  omap (Spec.matched_velocity row_norm [] time_delta) current = [].
Proof. induction current as [|c rest IH]; [reflexivity|exact IH]. Qed.

Lemma movement_loop_spec q qs time_delta : forall current velocities,
  movement_loop (q :: qs) time_delta velocities current
  = Ok (velocities
        ++ omap (Spec.matched_velocity row_norm (q :: qs) time_delta) current).
Proof.
  induction current as [|c rest IH]; intros velocities.
  - cbn [movement_loop omap list_omap]. rewrite app_nil_r. reflexivity.
  - cbn [movement_loop map distances_min].
    cbv beta iota delta [mbind result_bind].
    rewrite IH. cbn [omap list_omap].
    unfold Spec.matched_velocity at 2, Spec.nearest_distance.
    cbn [map]. change (row_norm c) with (row_norm c).
    destruct (_ <? 200)%float; [|reflexivity].
    rewrite <- app_assoc. reflexivity.
Qed.

Lemma calculate_movement_spec self current time_delta :
  calculate_movement self current time_delta
  = Ok (Spec.movement row_norm (previous_positions self) current time_delta,
        set_previous_positions self current).
Proof.
  unfold calculate_movement, Spec.movement.
  destruct (previous_positions self) as [[|q qs]|]; [| |reflexivity].
  - destruct current as [|c rest]; [reflexivity|].
    rewrite matched_velocity_no_previous. reflexivity.
  - destruct current as [|c rest]; [reflexivity|].
    cbn [length Nat.eqb].
    rewrite movement_loop_spec. cbv beta iota delta [mbind result_bind].
    rewrite app_nil_l.
    destruct (omap _ (c :: rest)); reflexivity.
Qed.








(** C10 (code defect shared with C9).  After [analyze] on an empty detection
    list the stored positions are the empty list; from that state the motion
    estimator returns 0.0 for every position list and time delta, and every
    result the next [analyze] call returns has velocity 0.0.  The next call
    does not always return: in a frame 40 pixels high, one person at
    (100, 10) ends it with IndexError before the motion estimator runs. *)
Theorem C10_motion_reset_after_empty_frame `{Sklearn} self ts time_delta :
  (exists m, analyze self [] ts time_delta
             = Ok (m, set_previous_positions self [])) /\
  (forall positions time_delta',
     calculate_movement (set_previous_positions self []) positions time_delta'
     = Ok (0%float, set_previous_positions self positions)) /\
  (forall detections ts' time_delta' m self',
     analyze (set_previous_positions self []) detections ts' time_delta'
     = Ok (m, self') ->
     avg_velocity m = 0%float) /\
  analyze (set_previous_positions (init (40, 1280)) []) [low_frame_detection]
    ts time_delta = Raise IndexError.
Proof.
  split; [|split; [|split]].
  - eexists. apply analyze_empty.
  - intros positions time_delta'.
    rewrite calculate_movement_spec.
    cbn [previous_positions set_previous_positions]. unfold Spec.movement.
    destruct positions; [reflexivity|].
    rewrite matched_velocity_no_previous. reflexivity.
  - intros detections ts' time_delta' m self'. unfold analyze.
    destruct (detect_high_density_zones _ _) as [zones|e];
      cbv beta iota delta [mbind result_bind]; [|discriminate].
    rewrite calculate_movement_spec.
    assert (Spec.movement row_norm (previous_positions (set_previous_positions self []))
              (if 0 <? Z.of_nat (length detections)
               then map det_center detections else []) time_delta'
            = 0%float) as ->.
    { cbn [previous_positions set_previous_positions].
      unfold Spec.movement.
      destruct (if 0 <? _ then _ else _); [reflexivity|].
      rewrite matched_velocity_no_previous. reflexivity. }
    destruct (classify_risk _ _ _ _) as [[lvl score] anomaly].
    intros [= <- _]. reflexivity.
  - reflexivity.
Qed.

(** ** Further properties of the analyzer *)

(** Rush behavior is reported exactly for the Critical level: the guard
    chain never yields it, the override always does. *)
Theorem rush_behavior_iff_critical count ds zones v :
  let r := classify_risk count ds zones v in
  anomaly_of_result r = RUSH_BEHAVIOR <-> level_of_result r = CRITICAL.
Proof.
  intros r. subst r. unfold classify_risk, anomaly_of_result, level_of_result.
  cbv beta zeta iota delta [fst snd].
  destruct (_ <? 25)%float; [|destruct (_ <? 50)%float;
                                [|destruct (_ <? 75)%float]];
    try (split; [|discriminate]);
    try (split; reflexivity);
    destruct (_ <? v)%float; try discriminate;
    destruct (3 <? _); try discriminate;
    destruct (70 <? ds)%float; discriminate.
Qed.

Lemma centers_of_if detections :
  (if 0 <? Z.of_nat (length detections)
   then map det_center detections else [])
  = centers_of detections.
Proof. destruct detections; reflexivity. Qed.

(** What a returning [analyze] call leaves behind. *)
Lemma analyze_Ok_inv `{Sklearn} self detections ts time_delta m self' :
  analyze self detections ts time_delta = Ok (m, self') ->
  self' = set_previous_positions self (centers_of detections) /\
  total_count m = Z.of_nat (length detections) /\
  metrics_frame_area m = frame_area self /\
  timestamp m = ts /\
  density_score m
  = calculate_density_score self (Z.of_nat (length detections)) /\
  detect_high_density_zones self (centers_of detections)
  = Ok (high_density_zones m) /\
  clusters m = detect_clusters (centers_of detections) /\
  avg_velocity m
  = Py.round2 (Spec.movement row_norm (previous_positions self)
                 (centers_of detections) time_delta) /\
  (risk_level m, risk_score m, anomaly_type m)
  = classify_risk (Z.of_nat (length detections)) (density_score m)
      (high_density_zones m)
      (Spec.movement row_norm (previous_positions self) (centers_of detections)
         time_delta).
Proof.
  unfold analyze. rewrite centers_of_if.
  destruct (detect_high_density_zones _ _) as [zones|e];
    cbv beta iota delta [mbind result_bind]; [|discriminate].
  rewrite calculate_movement_spec.
  destruct (classify_risk _ _ _ _) as [[lvl score] anomaly] eqn:E.
  intros [= <- <-]. cbn. rewrite E. repeat split.
Qed.

(** Whenever the first [analyze] call on a fresh analyzer returns, it reports
    velocity 0.0, whatever the frame shape, the detections and the time
    delta are.  (The call can also raise: see C9.) *)
Theorem first_call_velocity_zero `{Sklearn} shape detections ts time_delta
    m self' :
  analyze (init shape) detections ts time_delta = Ok (m, self') ->
  avg_velocity m = 0%float.
Proof.
  intros Ha. apply analyze_Ok_inv in Ha.
  destruct Ha as (_ & _ & _ & _ & _ & _ & _ & -> & _).
  destruct shape as [h w]. reflexivity.
Qed.

Lemma first_call_velocity_zero_witness :
  exists m self',
    @analyze all_noise (init (720, 1280)) fake_detections "t"
      default_time_delta = Ok (m, self') /\
    avg_velocity m = 0%float.
Proof.
  eexists _, _. split; [vm_compute; reflexivity|].
  apply (@first_call_velocity_zero all_noise (720, 1280) fake_detections "t"
           default_time_delta _ _ eq_refl).
Defined.

(** *** The time delta of the motion estimator *)

Lemma max2_below_epsilon time_delta :
  (time_delta <? 0.001)%float = true ->
  Py.max2 time_delta 0.001 = Py.max2 0.001 0.001.
Proof. unfold Py.max2. intros ->. reflexivity. Qed.

Lemma matched_velocity_below_epsilon previous time_delta :
  (time_delta <? 0.001)%float = true -> forall current : list point,
  omap (Spec.matched_velocity row_norm previous time_delta) current
  = omap (Spec.matched_velocity row_norm previous 0.001) current.
Proof.
  intros Hd. induction current as [|c rest IH]; [reflexivity|].
  cbn [omap list_omap]. rewrite IH.
  unfold Spec.matched_velocity. rewrite (max2_below_epsilon _ Hd).
  reflexivity.
Qed.

(** A time delta below one millisecond, zero and negative values included,
    is replaced by one millisecond: the call behaves as with 0.001. *)
Theorem time_delta_below_epsilon self positions time_delta :
  (time_delta <? 0.001)%float = true ->
  calculate_movement self positions time_delta
  = calculate_movement self positions 0.001.
Proof.
  intros Hd. rewrite !calculate_movement_spec. unfold Spec.movement.
  destruct (previous_positions self) as [previous|]; [|reflexivity].
  destruct positions as [|p rest]; [reflexivity|].
  rewrite (matched_velocity_below_epsilon _ _ Hd). reflexivity.
Qed.

Lemma time_delta_below_epsilon_witness :
  calculate_movement (set_previous_positions (init (720, 1280)) [(100, 100)])
    [(110, 100)] 0
  = calculate_movement (set_previous_positions (init (720, 1280)) [(100, 100)])
      [(110, 100)] 0.001.
Proof. apply time_delta_below_epsilon. reflexivity. Defined.

(** *** The cap at 100 *)

Lemma SFleb_key x y :
  SFleb x y = true -> ~ key_lt (sf_key y) (sf_key x).
Proof.
  unfold SFleb, SFcompare, key_lt.
  destruct x as [sx|sx| |sx mx ex], y as [sy|sy| |sy my ey];
    try discriminate; try destruct sx; try destruct sy; simpl;
    try discriminate; try lia.
  all: rewrite ?Pos.compare_cont_spec; simpl.
  all: destruct (Z.compare_spec ex ey) as [He|He|He];
    destruct (Pos.compare_spec mx my) as [Hm|Hm|Hm]; simpl;
    intros H; try discriminate H; lia.
Qed.

Lemma leb_not_ltb x y : (x <=? y)%float = true -> (y <? x)%float = false.
Proof.
  rewrite leb_spec, ltb_spec. intros H.
  destruct (SFltb (Prim2SF y) (Prim2SF x)) eqn:E; [|reflexivity].
  pose proof (SFleb_key _ _ H) as N.
  destruct (sf_nan_dec (Prim2SF y)) as [Hy|Hy];
    [rewrite Hy in E; discriminate E|].
  destruct (sf_nan_dec (Prim2SF x)) as [Hx|Hx];
    [rewrite Hx, SFltb_nan_r in E; discriminate E|].
  apply SFltb_key in E; try assumption. contradiction.
Qed.

Lemma round2_negative t m e :
  Prim2SF t = S754_finite true m e -> has_sign true (Prim2SF (Py.round2 t)).
Proof.
  intros E. unfold Py.round2. rewrite E. apply SF2Prim_sign.
  destruct (Py.round_half_even_scaled m e) as [|p|p]; try reflexivity.
  apply (SFdiv_finite_sign true p 0 false 100 0).
Qed.

Lemma ltb_100_negative r : has_sign true (Prim2SF r) -> (100 <? r)%float = false.
Proof.
  rewrite ltb_spec.
  change (Prim2SF 100) with (S754_finite false 7036874417766400 (-46)).
  destruct (Prim2SF r) as [s|s| |s m e]; simpl; try tauto; intros ->;
    reflexivity.
Qed.

(** Rounding to two decimals does not lift a double above 100. *)
Lemma round2_capped t :
  (100 <? t)%float = false -> (100 <? Py.round2 t)%float = false.
Proof.
  intros Ht.
  destruct (Prim2SF t) as [s|s| |[|] m e] eqn:E.
  - unfold Py.round2. rewrite E. exact Ht.
  - unfold Py.round2. rewrite E. exact Ht.
  - unfold Py.round2. rewrite E. exact Ht.
  - apply ltb_100_negative, (round2_negative t m e E).
  - apply leb_not_ltb, round2_range; [|exact Ht].
    unfold ge0. rewrite E. reflexivity.
Qed.

(** Neither score ever exceeds 100: for every analyzer, count, density
    score, zone list and velocity, negative, infinite and NaN values
    included, [100 < score] is false. *)
Theorem scores_never_exceed_100 self n count ds zones v :
  (100 <? calculate_density_score self n)%float = false /\
  (100 <? score_of (classify_risk count ds zones v))%float = false.
Proof.
  split.
  - unfold calculate_density_score.
    destruct (frame_area self =? 0); [reflexivity|].
    apply round2_capped, min2_100_capped.
  - unfold classify_risk, score_of. cbv beta zeta iota delta [fst snd].
    apply round2_capped, min2_100_capped.
Qed.

(** *** Zones *)

Lemma zone_of_cell_ok self grid_counts i j :
  (i < Z.to_nat (frame_height self / grid_size self))%nat ->
  (j < Z.to_nat (frame_width self / grid_size self))%nat ->
  Forall (zone_ok self) (zone_of_cell (grid_size self) grid_counts i j).
Proof.
  intros Hi Hj. unfold zone_of_cell.
  destruct (Z.leb_spec Config.HIGH_DENSITY_THRESHOLD (Np.get grid_counts i j))
    as [Hc|Hc]; [|constructor].
  constructor; [|constructor].
  unfold zone_ok. cbn.
  repeat split; try lia.
  - intros Hl. destruct (Z.ltb_spec (Config.HIGH_DENSITY_THRESHOLD * 2)
                           (Np.get grid_counts i j)); [assumption|discriminate].
  - intros Hl. destruct (Z.ltb_spec (Config.HIGH_DENSITY_THRESHOLD * 2)
                           (Np.get grid_counts i j)); [reflexivity|lia].
Qed.

Lemma detect_zones_ok self centers zones :
  detect_high_density_zones self centers = Ok zones ->
  Forall (zone_ok self) zones.
Proof.
  unfold detect_high_density_zones, floordiv.
  destruct (length centers =? 0)%nat; [intros [= <-]; constructor|].
  destruct (grid_size self =? 0); [discriminate|].
  cbv beta iota delta [mbind result_bind].
  destruct (Np.zeros _ _) as [g0|e]; [|discriminate].
  destruct (tally _ _ _ _ _) as [g|e]; [|discriminate].
  intros [= <-].
  apply List.Forall_flat_map, List.Forall_forall. intros i Hi.
  apply List.Forall_flat_map, List.Forall_forall. intros j Hj.
  apply in_seq in Hi, Hj. apply zone_of_cell_ok; lia.
Qed.

(** Every zone that [detect_high_density_zones] returns meets the threshold,
    is critical exactly when its count exceeds twice the threshold, lies
    inside the grid and has the box of its cell. *)
Theorem zones_meet_threshold self centers zones :
  detect_high_density_zones self centers = Ok zones ->
  Forall (zone_ok self) zones.
Proof. apply detect_zones_ok. Qed.

Lemma zones_meet_threshold_witness :
  Forall (zone_ok (init (720, 1280)))
    [ {| grid_position := (2, 2); zone_bbox := (100, 100, 150, 150);
         person_count := 6; density_level := level_high |} ].
Proof.
  apply (zones_meet_threshold (init (720, 1280))
           [(100, 100); (120, 105); (105, 120);
            (100, 100); (120, 105); (105, 120)]).
  vm_compute. reflexivity.
Defined.

(** *** Clusters *)

Lemma fold_min_le rest : forall x, fold_left Z.min rest x <= x.
Proof.
  induction rest as [|y rest IH]; intros x; simpl; [lia|].
  specialize (IH (Z.min x y)). lia.
Qed.

Lemma fold_max_ge rest : forall x, x <= fold_left Z.max rest x.
Proof.
  induction rest as [|y rest IH]; intros x; simpl; [lia|].
  specialize (IH (Z.max x y)). lia.
Qed.

Lemma col_min_le_max xs : col_min xs <= col_max xs.
Proof.
  destruct xs as [|x rest]; simpl; [lia|].
  pose proof (fold_min_le rest x). pose proof (fold_max_ge rest x). lia.
Qed.

Lemma select_length centers : forall labels label,
  (length (select centers labels label) <= length centers)%nat.
Proof.
  induction centers as [|c cs IH]; intros [|l ls] label; simpl; try lia.
  destruct (l =? label); simpl; specialize (IH ls label); lia.
Qed.

Lemma make_cluster_ok centers labels label :
  label <> -1 -> cluster_ok centers labels (make_cluster centers labels label).
Proof.
  intros Hl. unfold cluster_ok, make_cluster. cbn.
  pose proof (select_length centers labels label).
  pose proof (col_min_le_max (map fst (select centers labels label))).
  pose proof (col_min_le_max (map snd (select centers labels label))).
  repeat split; try assumption; try lia. nia.
Qed.

Lemma collect_clusters_ok centers labels unique_labels :
  Forall (cluster_ok centers labels)
    (collect_clusters centers labels unique_labels).
Proof.
  unfold collect_clusters.
  assert (forall acc, Forall (cluster_ok centers labels) acc ->
            Forall (cluster_ok centers labels)
              (fold_left
                 (fun clusters label =>
                    if label =? -1 then clusters
                    else clusters ++ [make_cluster centers labels label])
                 unique_labels acc)) as Hfold.
  { induction unique_labels as [|l ls IH]; intros acc Hacc; simpl;
      [exact Hacc|].
    apply IH. destruct (Z.eqb_spec l (-1)); [exact Hacc|].
    apply Forall_app. split; [exact Hacc|].
    constructor; [|constructor]. apply make_cluster_ok. assumption. }
  apply Hfold. constructor.
Qed.

(** Every cluster that [detect_clusters] returns, for any labelling and any
    iteration order of the label set: it is not built for the noise label
    -1, its size is the number of centers with its label and at most the
    number of centers, its box is ordered and its area is not negative. *)
Theorem clusters_are_well_formed `{Sklearn} centers :
  Forall
    (cluster_ok centers
       (fit_predict Config.CLUSTERING_EPS Config.MIN_CLUSTER_SIZE centers))
    (detect_clusters centers).
Proof.
  rewrite detect_clusters_sort, sort_by_size_desc_perm.
  unfold encounter_order.
  destruct (_ <? Config.MIN_CLUSTER_SIZE); [constructor|].
  apply collect_clusters_ok.
Qed.

(** *** The tally counts every center once *)

Lemma sum_list_app xs ys : sum_list (xs ++ ys) = sum_list xs + sum_list ys.
Proof. unfold sum_list. induction xs as [|x xs IH]; simpl; lia. Qed.

Lemma sum_list_nonneg xs : Forall (fun c => 0 <= c) xs -> 0 <= sum_list xs.
Proof. unfold sum_list. induction 1; simpl; lia. Qed.

Lemma row_alter_total r : forall j,
  (j < length r)%nat -> sum_list (alter (Z.add 1) j r) = sum_list r + 1.
Proof.
  unfold sum_list, alter.
  induction r as [|x r IH]; intros [|j] Hj; simpl in *; try lia.
  rewrite IH by lia. lia.
Qed.

Lemma row_alter_nonneg r j :
  Forall (fun c => 0 <= c) r -> Forall (fun c => 0 <= c) (alter (Z.add 1) j r).
Proof.
  intros H. revert j. unfold alter.
  induction H as [|x r Hx Hr IH]; intros [|j]; simpl;
    constructor; auto; lia.
Qed.

Lemma grid_alter_spec cols g : forall i j,
  grid_shape (length g) cols g -> (i < length g)%nat -> (j < cols)%nat ->
  grid_shape (length g) cols (alter (alter (Z.add 1) j) i g) /\
  grid_total (alter (alter (Z.add 1) j) i g) = grid_total g + 1.
Proof.
  unfold grid_shape, grid_total.
  induction g as [|r g IH]; intros i j [_ Hg] Hi Hj; [simpl in Hi; lia|].
  apply List.Forall_cons_iff in Hg as [[Hr Hr0] Hg].
  destruct i as [|i].
  - change (alter (alter (Z.add 1) j) 0%nat (r :: g))
      with (alter (Z.add 1) j r :: g).
    split.
    + split; [reflexivity|]. constructor; [|exact Hg].
      split; [rewrite length_alter; exact Hr|apply row_alter_nonneg, Hr0].
    + cbn [concat]. rewrite !sum_list_app, row_alter_total by lia. lia.
  - change (alter (alter (Z.add 1) j) (S i) (r :: g))
      with (r :: alter (alter (Z.add 1) j) i g).
    destruct (IH i j (conj eq_refl Hg) ltac:(simpl in Hi; lia) Hj)
      as [[Hl Hs] Ht].
    split.
    + split; [cbn [length]; f_equal; exact Hl|].
      constructor; [split; assumption|exact Hs].
    + cbn [concat]. rewrite !sum_list_app, Ht. lia.
Qed.

Lemma index_Ok n i k : Np.index n i = Ok k -> (k < Z.to_nat n)%nat.
Proof.
  unfold Np.index.
  destruct (Z.leb_spec 0 i), (Z.ltb_spec i n); simpl;
    try (intros [= <-]; lia);
    destruct (Z.leb_spec (- n) i), (Z.ltb_spec i 0); simpl;
    try discriminate; intros [= <-]; lia.
Qed.

Lemma incr_spec rows cols g i j g' :
  grid_shape (Z.to_nat rows) (Z.to_nat cols) g ->
  Np.incr rows cols g i j = Ok g' ->
  grid_shape (Z.to_nat rows) (Z.to_nat cols) g' /\
  grid_total g' = grid_total g + 1.
Proof.
  intros Hg. unfold Np.incr.
  destruct (Np.index rows i) as [i'|e] eqn:Ei; [|discriminate].
  destruct (Np.index cols j) as [j'|e] eqn:Ej; [|discriminate].
  cbv beta iota delta [mbind result_bind]. intros [= <-].
  apply index_Ok in Ei, Ej.
  destruct Hg as [Hl Hg]. rewrite <- Hl in *.
  apply grid_alter_spec; [split; [reflexivity|exact Hg]|lia|lia].
Qed.

Lemma tally_spec gs rows cols centers : forall g g',
  grid_shape (Z.to_nat rows) (Z.to_nat cols) g ->
  tally gs rows cols g centers = Ok g' ->
  grid_shape (Z.to_nat rows) (Z.to_nat cols) g' /\
  grid_total g' = grid_total g + Z.of_nat (length centers).
Proof.
  induction centers as [|[x y] rest IH]; intros g g' Hg; simpl.
  - intros [= <-]. split; [exact Hg|lia].
  - destruct (cell_of x gs) as [cx|e]; [|discriminate].
    destruct (cell_of y gs) as [cy|e]; [|discriminate].
    cbv beta iota delta [mbind result_bind].
    destruct (Np.incr _ _ _ _ _) as [g1|e] eqn:E; [|discriminate].
    intros Ht. destruct (incr_spec _ _ _ _ _ _ Hg E) as [Hg1 Ht1].
    destruct (IH _ _ Hg1 Ht) as [Hg' Ht']. split; [exact Hg'|lia].
Qed.

Lemma sum_list_replicate_zero m : sum_list (replicate m 0) = 0.
Proof. unfold sum_list. induction m as [|m IH]; simpl; lia. Qed.

Lemma zeros_spec rows cols g :
  Np.zeros rows cols = Ok g ->
  grid_shape (Z.to_nat rows) (Z.to_nat cols) g /\ grid_total g = 0.
Proof.
  unfold Np.zeros. destruct (_ || _); [discriminate|]. intros [= <-].
  unfold grid_shape, grid_total. rewrite length_replicate.
  split; [split; [reflexivity|]|].
  - apply Forall_replicate. rewrite length_replicate.
    split; [reflexivity|]. apply Forall_replicate. lia.
  - induction (Z.to_nat rows) as [|n IH]; simpl; [reflexivity|].
    rewrite sum_list_app, IH, sum_list_replicate_zero. reflexivity.
Qed.

(** Reading a list through its indices gives the list back. *)
Lemma map_lookup_seq {A B} (f : option A -> B) (l : list A) :
  map (fun i => f (l !! i)) (seq 0 (length l)) = map (fun x => f (Some x)) l.
Proof.
  induction l as [|x l IH]; simpl; [reflexivity|].
  f_equal. rewrite <- seq_shift, map_map. exact IH.
Qed.

Lemma sum_over_le l f g :
  (forall i, In i l -> f i <= g i) -> sum_over l f <= sum_over l g.
Proof.
  unfold sum_over, sum_list.
  induction l as [|i l IH]; intros H; simpl; [lia|].
  pose proof (H i (or_introl eq_refl)).
  specialize (IH (fun k Hk => H k (or_intror Hk))). lia.
Qed.

Lemma persons_in_flat_map {A} (F : A -> list DensityZone) l :
  persons_in (flat_map F l) = sum_list (map (fun x => persons_in (F x)) l).
Proof.
  unfold persons_in.
  induction l as [|x l IH]; simpl; [reflexivity|].
  rewrite map_app, sum_list_app, IH. unfold sum_list. simpl. reflexivity.
Qed.

Lemma persons_in_cell gs g i j :
  persons_in (zone_of_cell gs g i j) = kept (Np.get g i j).
Proof.
  unfold zone_of_cell, kept.
  destruct (_ <=? _); unfold persons_in, sum_list; simpl; lia.
Qed.

Lemma persons_in_zones gs g rows cols :
  persons_in
    (flat_map (fun i => flat_map (zone_of_cell gs g i) (seq 0 cols))
       (seq 0 rows))
  = sum_over (seq 0 rows)
      (fun i => sum_over (seq 0 cols) (fun j => kept (Np.get g i j))).
Proof.
  rewrite persons_in_flat_map. unfold sum_over. f_equal.
  apply map_ext. intros i. rewrite persons_in_flat_map. f_equal.
  apply map_ext. intros j. apply persons_in_cell.
Qed.

Lemma row_total cols (r : list Z) :
  length r = cols ->
  sum_over (seq 0 cols) (fun j => default 0 (r !! j)) = sum_list r.
Proof.
  intros <-. unfold sum_over.
  rewrite (map_lookup_seq (default 0) r). simpl. rewrite map_id. reflexivity.
Qed.

Lemma grid_total_by_index rows cols g :
  grid_shape rows cols g ->
  sum_over (seq 0 rows) (fun i => sum_over (seq 0 cols) (Np.get g i))
  = grid_total g.
Proof.
  intros [<- Hg]. unfold sum_over at 1, Np.get.
  rewrite (map_lookup_seq
             (fun o => sum_over (seq 0 cols)
                         (fun j => default 0 (o ≫= (.!! j)))) g).
  unfold grid_total. induction Hg as [|r g [Hr _] Hg IH]; [reflexivity|].
  simpl. rewrite sum_list_app, <- IH. unfold sum_list at 1. simpl.
  f_equal. apply row_total, Hr.
Qed.

Lemma get_nonneg rows cols g i j : grid_shape rows cols g -> 0 <= Np.get g i j.
Proof.
  intros [_ Hg]. unfold Np.get.
  destruct (g !! i) as [r|] eqn:Er; simpl; [|lia].
  destruct (r !! j) as [c|] eqn:Ec; simpl; [|lia].
  apply list_elem_of_lookup_2, list_elem_of_In in Er.
  apply list_elem_of_lookup_2, list_elem_of_In in Ec.
  rewrite List.Forall_forall in Hg. destruct (Hg r Er) as [_ Hr].
  rewrite List.Forall_forall in Hr. apply Hr, Ec.
Qed.

Lemma kept_le c : 0 <= c -> kept c <= c.
Proof. unfold kept. destruct (_ <=? c); lia. Qed.

Lemma zones_account rows cols gs g :
  grid_shape rows cols g ->
  persons_in
    (flat_map (fun i => flat_map (zone_of_cell gs g i) (seq 0 cols))
       (seq 0 rows))
  <= grid_total g.
Proof.
  intros Hg. rewrite persons_in_zones, <- (grid_total_by_index rows cols g Hg).
  apply sum_over_le. intros i _. apply sum_over_le. intros j _.
  apply kept_le, (get_nonneg rows cols), Hg.
Qed.

Lemma persons_in_lower self zones :
  Forall (zone_ok self) zones ->
  Config.HIGH_DENSITY_THRESHOLD * Z.of_nat (length zones) <= persons_in zones.
Proof.
  unfold persons_in, sum_list.
  induction 1 as [|z zones Hz Hzs IH]; simpl; [lia|].
  unfold zone_ok in Hz. destruct (grid_position z) as [j i].
  destruct Hz as [Hz _]. lia.
Qed.

(** The zones never account for more persons than were detected: the
    person counts of the zones add up to at most the number of centers, and
    each zone needs [HIGH_DENSITY_THRESHOLD] centers of its own. *)
Theorem zones_count_each_person_once self centers zones :
  detect_high_density_zones self centers = Ok zones ->
  persons_in zones <= Z.of_nat (length centers) /\
  Config.HIGH_DENSITY_THRESHOLD * Z.of_nat (length zones)
  <= Z.of_nat (length centers).
Proof.
  intros Hz. pose proof (detect_zones_ok _ _ _ Hz) as Hok.
  apply persons_in_lower in Hok.
  assert (persons_in zones <= Z.of_nat (length centers)) as Hle; [|lia].
  clear Hok. revert Hz.
  unfold detect_high_density_zones.
  destruct (length centers =? 0)%nat;
    [intros [= <-]; unfold persons_in, sum_list; simpl; lia|].
  destruct (floordiv (frame_height self) _) as [rows|e]; [|discriminate].
  destruct (floordiv (frame_width self) _) as [cols|e]; [|discriminate].
  cbv beta iota delta [mbind result_bind].
  destruct (Np.zeros rows cols) as [g0|e] eqn:E0; [|discriminate].
  destruct (tally _ _ _ _ _) as [g|e] eqn:Et; [|discriminate].
  intros [= <-].
  destruct (zeros_spec _ _ _ E0) as [Hg0 Ht0].
  destruct (tally_spec _ _ _ _ _ _ Hg0 Et) as [Hg Ht].
  pose proof (zones_account _ _ (grid_size self) g Hg). lia.
Qed.

Lemma zones_count_each_person_once_witness :
  persons_in
    [ {| grid_position := (2, 2); zone_bbox := (100, 100, 150, 150);
         person_count := 6; density_level := level_high |} ] <= 7 /\
  Config.HIGH_DENSITY_THRESHOLD * 1 <= 7.
Proof.
  apply (zones_count_each_person_once (init (720, 1280))
           [(100, 100); (120, 105); (105, 120);
            (100, 100); (120, 105); (105, 120); (700, 300)]).
  vm_compute. reflexivity.
Defined.

(** *** Exponents after rounding *)

Lemma binary_round_aux_small s mx ex lx E :
  0 <= mx < 2 ^ 64 -> ex <= E ->
  small_sf (Z.max (E + 23) (-900)) (binary_round_aux prec emax s mx ex lx)
  \/ exists s', binary_round_aux prec emax s mx ex lx = S754_infinity s'.
Proof.
  intros [Hm0 Hm] He. unfold binary_round_aux.
  pose proof (shr_fexp_nonneg mx ex lx Hm0) as H1.
  pose proof (shr_fexp_le mx ex lx Hm0) as H1'.
  pose proof (shr_fexp_exp mx ex lx) as E1.
  pose proof (fexp_le (Zdigits2 mx + ex)) as F1.
  pose proof (Zdigits2_le mx 64 ltac:(lia) ltac:(lia)) as D1.
  destruct (shr_fexp prec emax mx ex lx) as [mrs' e']. simpl in H1, H1', E1.
  set (m2 := round_nearest_even (shr_m mrs') (loc_of_shr_record mrs')).
  assert (0 <= m2 <= shr_m mrs' + 1) as Hm2.
  { subst m2. destruct (loc_of_shr_record mrs') as [|[]]; simpl; try lia.
    destruct (Z.even _); lia. }
  pose proof (shr_fexp_exp m2 e' loc_Exact) as E2.
  pose proof (fexp_le (Zdigits2 m2 + e')) as F2.
  assert (m2 < 2 ^ 65) as Hm2'.
  { change (2 ^ 65) with (2 * 2 ^ 64). lia. }
  pose proof (Zdigits2_le m2 65 ltac:(lia) ltac:(lia)) as D2.
  pose proof (shr_fexp_nonneg m2 e' loc_Exact ltac:(lia)) as H2.
  destruct (shr_fexp prec emax m2 e' loc_Exact) as [mrs'' e'']. simpl in *.
  destruct (shr_m mrs'') as [|p|p]; simpl; try (left; exact I); try lia.
  destruct (e'' <=? emax - prec); [left; simpl; lia|right; eauto].
Qed.

Lemma binary_round_aux_finite_gen s mx ex lx :
  0 <= mx < 2 ^ 64 -> ex <= 900 ->
  finite_sf (binary_round_aux prec emax s mx ex lx).
Proof.
  intros [Hm0 Hm] He. unfold binary_round_aux.
  pose proof (shr_fexp_nonneg mx ex lx Hm0) as H1.
  pose proof (shr_fexp_le mx ex lx Hm0) as H1'.
  pose proof (shr_fexp_exp mx ex lx) as E1.
  pose proof (fexp_le (Zdigits2 mx + ex)) as F1.
  pose proof (Zdigits2_le mx 64 ltac:(lia) ltac:(lia)) as D1.
  destruct (shr_fexp prec emax mx ex lx) as [mrs' e']. simpl in H1, H1', E1.
  set (m2 := round_nearest_even (shr_m mrs') (loc_of_shr_record mrs')).
  assert (0 <= m2 <= shr_m mrs' + 1) as Hm2.
  { subst m2. destruct (loc_of_shr_record mrs') as [|[]]; simpl; try lia.
    destruct (Z.even _); lia. }
  pose proof (shr_fexp_exp m2 e' loc_Exact) as E2.
  pose proof (fexp_le (Zdigits2 m2 + e')) as F2.
  assert (m2 < 2 ^ 65) as Hm2'.
  { change (2 ^ 65) with (2 * 2 ^ 64). lia. }
  pose proof (Zdigits2_le m2 65 ltac:(lia) ltac:(lia)) as D2.
  pose proof (shr_fexp_nonneg m2 e' loc_Exact ltac:(lia)) as H2.
  destruct (shr_fexp prec emax m2 e' loc_Exact) as [mrs'' e'']. simpl in *.
  destruct (shr_m mrs'') as [|p|p]; simpl; try exact I; try lia.
  assert ((e'' <=? emax - prec) = true) as ->; [|exact I].
  apply Z.leb_le. unfold emax, prec. lia.
Qed.

Lemma binary_normalize_small z :
  0 <= z < 2 ^ 63 -> small_sf 23 (binary_normalize prec emax z 0 false).
Proof.
  intros Hz. pose proof (binary_normalize_finite z Hz) as Hf.
  destruct z as [|p|p]; simpl in *; try exact I; try lia.
  unfold binary_round, shl_align in *.
  destruct (fexp prec emax (Z.pos (digits2_pos p) + 0) - 0) as [|d|d] eqn:E.
  - destruct (binary_round_aux_small false (Z.pos p) 0 loc_Exact 0)
      as [H|[s' H]]; try lia; [exact H|rewrite H in Hf; destruct Hf].
  - destruct (binary_round_aux_small false (Z.pos p) 0 loc_Exact 0)
      as [H|[s' H]]; try lia; [exact H|rewrite H in Hf; destruct Hf].
  - set (mz := Pos.iter xO p d) in *.
    set (ez := fexp prec emax (Z.pos (digits2_pos p) + 0)) in *.
    assert (ez <= 0) as Hez by lia.
    destruct (binary_round_aux prec emax false (Z.pos mz) ez loc_Exact)
      as [s|s| |s m e] eqn:Er; try exact I; try destruct Hf.
    assert (0 <= Z.pos mz < 2 ^ 64) as Hmz.
    { subst mz. fold (Zpower.shift_pos d p).
      rewrite Zpower.shift_pos_correct, Z.pow_pos_fold.
      pose proof (digits2_pos_gt p) as Hp.
      assert (Z.pos d + Z.pos (digits2_pos p) = 53) as Hd
        by (subst ez; unfold fexp, SpecFloat.emin, prec, emax in E; lia).
      assert (2 ^ Z.pos d * 2 ^ Z.pos (digits2_pos p) = 2 ^ 53) as Hpow
        by (rewrite <- Z.pow_add_r, Hd by lia; reflexivity).
      assert (0 < 2 ^ Z.pos d) by (apply Z.pow_pos_nonneg; lia).
      split; [lia|].
      apply Z.lt_trans with (2 ^ 53); [|reflexivity].
      rewrite <- Hpow. apply Z.mul_lt_mono_pos_l; assumption. }
    destruct (binary_round_aux_small false (Z.pos mz) ez loc_Exact 0 Hmz Hez)
      as [H|[s' H]]; rewrite Er in H; [exact H|discriminate H].
Qed.

(** *** Quotients of small doubles are finite *)

Lemma digits2_pos_lower m : 2 ^ (Z.pos (digits2_pos m) - 1) <= Z.pos m.
Proof.
  pose proof (digits2_pos_le m) as H.
  assert (2 ^ Z.pos (digits2_pos m)
          = 2 * 2 ^ (Z.pos (digits2_pos m) - 1)) as Heq.
  { rewrite <- Z.pow_succ_r by lia. f_equal. lia. }
  lia.
Qed.

Lemma SFdiv_core_bounds m1 e1 m2 e2 :
  Z.pos m1 < 2 ^ 53 -> 2 ^ 52 <= Z.pos m2 < 2 ^ 53 ->
  let '(q, e', _) := SFdiv_core_binary prec emax (Z.pos m1) e1 (Z.pos m2) e2 in
  0 <= q < 2 ^ 64 /\ e' <= e1 - e2.
Proof.
  intros Hm1 Hm2. unfold SFdiv_core_binary.
  set (d1 := Zdigits2 (Z.pos m1)). set (d2 := Zdigits2 (Z.pos m2)).
  set (e' := Z.min (fexp prec emax (d1 + e1 - (d2 + e2))) (e1 - e2)).
  set (s := e1 - e2 - e').
  assert (d2 = 53) as Hd2.
  { subst d2. simpl.
    pose proof (digits2_pos_lower m2). pose proof (digits2_pos_gt m2).
    assert (Z.pos (digits2_pos m2) - 1 < 53)
      by (apply (Z.pow_lt_mono_r_iff 2); lia).
    assert (52 < Z.pos (digits2_pos m2))
      by (apply (Z.pow_lt_mono_r_iff 2); lia).
    lia. }
  assert (1 <= d1 <= 53) as Hd1.
  { subst d1. simpl. pose proof (digits2_pos_lower m1).
    assert (Z.pos (digits2_pos m1) - 1 < 53)
      by (apply (Z.pow_lt_mono_r_iff 2); lia).
    lia. }
  assert (0 <= s <= 106 - d1) as Hs.
  { subst s e'. unfold fexp, SpecFloat.emin, prec, emax. lia. }
  assert (Z.pos m1 < 2 ^ d1) as Hm1'.
  { subst d1. simpl. apply digits2_pos_gt. }
  set (m' := match s with
             | 0 => Z.pos m1
             | Z.pos _ => Z.shiftl (Z.pos m1) s
             | Z.neg _ => 0
             end).
  assert (0 <= m' < 2 ^ 106) as Hm'.
  { assert (m' = Z.pos m1 * 2 ^ s) as ->.
    { subst m'. destruct s as [|p|p] eqn:Es; try lia.
      rewrite Z.shiftl_mul_pow2 by lia. reflexivity. }
    assert (0 < 2 ^ s) by (apply Z.pow_pos_nonneg; lia).
    split; [lia|].
    apply Z.lt_le_trans with (2 ^ d1 * 2 ^ s).
    - apply Z.mul_lt_mono_pos_r; assumption.
    - rewrite <- Z.pow_add_r by lia. apply Z.pow_le_mono_r; lia. }
  pose proof (Z_div_mod m' (Z.pos m2) ltac:(lia)) as H.
  destruct (Z.div_eucl m' (Z.pos m2)) as [q r]. destruct H as [H1 H2].
  split; [|subst e'; lia].
  assert (0 <= q) by nia.
  split; [assumption|].
  assert (q * 2 ^ 52 < 2 ^ 106) as Hq by nia.
  change (2 ^ 106) with (2 ^ 54 * 2 ^ 52) in Hq.
  assert (q < 2 ^ 54) by (apply (Z.mul_lt_mono_pos_r (2 ^ 52)); lia).
  assert (2 ^ 54 < 2 ^ 64) by reflexivity. lia.
Qed.

(** A non-negative double with a small exponent, divided by a normal
    positive double with exponent [e2 >= -100], is a non-negative finite
    double. *)
Lemma SFdiv_small x m2 e2 :
  valid_binary x = true -> ge0_sf x -> small_sf 23 x ->
  2 ^ 52 <= Z.pos m2 < 2 ^ 53 -> -100 <= e2 ->
  ge0_sf (SF64div x (S754_finite false m2 e2)) /\
  finite_sf (SF64div x (S754_finite false m2 e2)).
Proof.
  intros Hv Hx Hs Hm2 He2.
  destruct x as [sx|sx| |sx m1 e1]; simpl in Hx, Hs; try tauto.
  subst sx. apply valid_mantissa_lt in Hv.
  pose proof (SFdiv_finite_sign false m1 e1 false m2 e2) as Hsign.
  split; [apply has_sign_ge0, Hsign|].
  unfold SF64div, SFdiv in *.
  pose proof (SFdiv_core_bounds m1 e1 m2 e2 Hv Hm2) as Hb.
  destruct (SFdiv_core_binary _ _ _ _ _ _) as [[q e'] l].
  destruct Hb as [Hq He'].
  apply binary_round_aux_finite_gen; [exact Hq|lia].
Qed.

(** *** Where the zone tally cannot fail *)

Lemma int_of_float_ge0 f :
  ge0 f -> finite_sf (Prim2SF f) ->
  exists c, Py.int_of_float f = Some c /\ 0 <= c.
Proof.
  unfold ge0, Py.int_of_float.
  destruct (Prim2SF f) as [s|s| |s m e]; simpl; try tauto; intros Hs _.
  - exists 0. split; [reflexivity|lia].
  - subst s. eexists. split; [reflexivity|].
    destruct e as [|p|p].
    + lia.
    + apply Z.mul_nonneg_nonneg; [lia|]. apply Z.pow_nonneg. lia.
    + apply Z.div_pos; [lia|]. rewrite Z.pow_pos_fold.
      apply Z.pow_pos_nonneg; lia.
Qed.

Lemma cell_of_Ok x :
  0 <= x < 2 ^ 63 ->
  exists c, cell_of x Config.DENSITY_GRID_SIZE = Ok c /\ 0 <= c.
Proof.
  intros Hx. unfold cell_of.
  change (Py.float_of_int Config.DENSITY_GRID_SIZE) with 50%float.
  destruct (SFdiv_small (Prim2SF (Py.float_of_int x)) 7036874417766400 (-47))
    as [Hge Hfin].
  - apply Prim2SF_valid.
  - apply float_of_int_ge0. lia.
  - rewrite float_of_int_spec by exact Hx. apply binary_normalize_small, Hx.
  - split; [discriminate|reflexivity].
  - lia.
  - destruct (int_of_float_ge0 (Py.float_of_int x / 50)) as (c & -> & Hc).
    + unfold ge0. rewrite div_spec. exact Hge.
    + rewrite div_spec. exact Hfin.
    + eauto.
Qed.

Lemma index_clamped n c : 1 <= n -> 0 <= c -> is_Ok (Np.index n (Z.min c (n - 1))) = true.
Proof.
  intros Hn Hc. unfold Np.index.
  destruct (Z.leb_spec 0 (Z.min c (n - 1))); [|lia].
  destruct (Z.ltb_spec (Z.min c (n - 1)) n); [reflexivity|lia].
Qed.

Lemma tally_Ok rows cols centers : forall g,
  1 <= rows -> 1 <= cols -> Forall in_quadrant centers ->
  exists g', tally Config.DENSITY_GRID_SIZE rows cols g centers = Ok g'.
Proof.
  induction centers as [|[x y] rest IH]; intros g Hr Hc Hq.
  - eexists. reflexivity.
  - apply List.Forall_cons_iff in Hq as [[Hx Hy] Hq]. simpl in Hx, Hy.
    cbn [tally].
    destruct (cell_of_Ok x Hx) as (cx & -> & Hcx).
    destruct (cell_of_Ok y Hy) as (cy & -> & Hcy).
    cbv beta iota delta [mbind result_bind]. unfold Np.incr.
    pose proof (index_clamped rows cy Hr Hcy) as Hi.
    pose proof (index_clamped cols cx Hc Hcx) as Hj.
    destruct (Np.index rows _) as [i|e]; [|discriminate Hi].
    destruct (Np.index cols _) as [j|e]; [|discriminate Hj].
    cbv beta iota delta [mbind result_bind].
    apply IH; assumption.
Qed.

Lemma detect_zones_Ok self centers :
  grid_size self = Config.DENSITY_GRID_SIZE ->
  Config.DENSITY_GRID_SIZE <= frame_height self ->
  Config.DENSITY_GRID_SIZE <= frame_width self ->
  Forall in_quadrant centers ->
  exists zones, detect_high_density_zones self centers = Ok zones.
Proof.
  intros Hg Hh Hw Hq. unfold detect_high_density_zones, floordiv.
  destruct (length centers =? 0)%nat; [eexists; reflexivity|].
  rewrite Hg. change (Config.DENSITY_GRID_SIZE =? 0) with false.
  cbv beta iota delta [mbind result_bind].
  assert (1 <= frame_height self / Config.DENSITY_GRID_SIZE) as Hr
    by (apply Z.div_le_lower_bound; unfold Config.DENSITY_GRID_SIZE in *; lia).
  assert (1 <= frame_width self / Config.DENSITY_GRID_SIZE) as Hc
    by (apply Z.div_le_lower_bound; unfold Config.DENSITY_GRID_SIZE in *; lia).
  unfold Np.zeros.
  destruct (Z.ltb_spec (frame_height self / Config.DENSITY_GRID_SIZE) 0);
    [lia|].
  destruct (Z.ltb_spec (frame_width self / Config.DENSITY_GRID_SIZE) 0);
    [lia|].
  cbn [orb]. cbv beta iota delta [mbind result_bind].
  destruct (tally_Ok _ _ centers
              (replicate
                 (Z.to_nat (frame_height self / Config.DENSITY_GRID_SIZE))
                 (replicate
                    (Z.to_nat (frame_width self / Config.DENSITY_GRID_SIZE))
                    0)) Hr Hc Hq) as [g' ->].
  eexists. reflexivity.
Qed.

(** On a frame of at least one grid cell in each direction, with the grid
    size of the configuration, [analyze] returns for every detection list
    whose centers have coordinates in [0, 2^63), however far outside the
    frame they lie, and stores those centers. *)
Theorem analyze_returns_on_regular_frames `{Sklearn} self detections ts
    time_delta :
  grid_size self = Config.DENSITY_GRID_SIZE ->
  Config.DENSITY_GRID_SIZE <= frame_height self ->
  Config.DENSITY_GRID_SIZE <= frame_width self ->
  Forall in_quadrant (centers_of detections) ->
  exists m,
    analyze self detections ts time_delta
    = Ok (m, set_previous_positions self (centers_of detections)).
Proof.
  intros Hg Hh Hw Hq. unfold analyze. rewrite centers_of_if.
  destruct (detect_zones_Ok self _ Hg Hh Hw Hq) as [zones ->].
  cbv beta iota delta [mbind result_bind].
  rewrite calculate_movement_spec.
  destruct (classify_risk _ _ _ _) as [[lvl score] anomaly].
  eexists. reflexivity.
Qed.

Lemma analyze_returns_on_regular_frames_witness :
  exists m,
    @analyze all_noise (init (720, 1280)) fake_detections "t"
      default_time_delta
    = Ok (m, set_previous_positions (init (720, 1280))
               (centers_of fake_detections)).
Proof.
  apply (@analyze_returns_on_regular_frames all_noise (init (720, 1280))
           fake_detections "t" default_time_delta);
    [reflexivity|discriminate|discriminate|].
  repeat constructor; discriminate.
Defined.

(** *** Distances and velocities are not negative *)

Lemma float_of_int_sign z : exists s, has_sign s (Prim2SF (Py.float_of_int z)).
Proof.
  unfold Py.float_of_int. destruct z as [|p|p].
  - exists false. apply SF2Prim_sign. reflexivity.
  - exists false. apply SF2Prim_sign, binary_round_sign.
  - exists true. apply SF2Prim_sign, binary_round_sign.
Qed.

Lemma SFmul_self_sign s x : has_sign s x -> has_sign false (SF64mul x x).
Proof.
  destruct x as [sx|sx| |sx m e]; simpl; try tauto; intros _.
  - destruct sx; reflexivity.
  - destruct sx; reflexivity.
  - unfold SF64mul, SFmul.
    replace (xorb sx sx) with false by (destruct sx; reflexivity).
    apply binary_round_aux_sign. lia.
Qed.

Lemma SFsqrt_core_nonneg m e :
  0 <= (SFsqrt_core_binary prec emax (Z.pos m) e).1.1.
Proof.
  unfold SFsqrt_core_binary.
  set (s := e - 2 * _).
  set (m' := match s with Z.pos _ => _ | 0 => _ | Z.neg _ => _ end).
  assert (0 <= m') as Hm'.
  { subst m'. destruct s; try lia. apply Z.shiftl_nonneg. lia. }
  pose proof (Z.sqrtrem_spec m' Hm') as H.
  destruct (Z.sqrtrem m') as [q r]. simpl. destruct H as [H1 H2]. nia.
Qed.

Lemma SFsqrt_sign x : has_sign false x -> has_sign false (SF64sqrt x).
Proof.
  destruct x as [sx|sx| |sx m e]; simpl; try tauto; intros ->; simpl;
    try reflexivity.
  unfold SF64sqrt, SFsqrt.
  pose proof (SFsqrt_core_nonneg m e) as H.
  destruct (SFsqrt_core_binary _ _ _ _) as [[mz ez] lz]. simpl in H.
  apply binary_round_aux_sign, H.
Qed.

(** A distance of [np.linalg.norm] is never NaN and never negative. *)
Lemma row_norm_sign p q : has_sign false (Prim2SF (row_norm p q)).
Proof.
  unfold row_norm. cbv zeta. rewrite sqrt_spec. apply SFsqrt_sign.
  destruct (float_of_int_sign (Py.wrap64 (q.1 - p.1))) as [sx Hx].
  destruct (float_of_int_sign (Py.wrap64 (q.2 - p.2))) as [sy Hy].
  apply add_sign_false.
  - rewrite mul_spec. apply (SFmul_self_sign sx), Hx.
  - unfold ge0. rewrite mul_spec.
    apply has_sign_ge0, (SFmul_self_sign sy), Hy.
Qed.

Lemma nearest_distance_sign previous p d :
  Spec.nearest_distance row_norm previous p = Some d -> has_sign false (Prim2SF d).
Proof.
  intros H. apply nearest_distance_nearest in H as [(q & _ & ->) _].
  apply row_norm_sign.
Qed.

Lemma max2_epsilon_pos time_delta :
  is_nan time_delta = false -> pos_sf (Prim2SF (Py.max2 time_delta 0.001)).
Proof.
  intros Hn. apply is_nan_false in Hn. unfold Py.max2.
  destruct (time_delta <? 0.001)%float eqn:E.
  - change (Prim2SF 0.001) with (S754_finite false 4611686018427388 (-62)).
    exact I.
  - rewrite ltb_spec in E.
    change (Prim2SF 0.001)
      with (S754_finite false 4611686018427388 (-62)) in E.
    destruct (Prim2SF time_delta) as [s|s| |s m e]; try congruence;
      destruct s; try discriminate E; exact I.
Qed.

Lemma below_200_finite d :
  has_sign false (Prim2SF d) -> (d <? 200)%float = true ->
  ge0 d /\ finite_sf (Prim2SF d).
Proof.
  intros Hs Hlt. rewrite ltb_spec in Hlt. unfold ge0.
  change (Prim2SF 200) with (S754_finite false 7036874417766400 (-45)) in Hlt.
  destruct (Prim2SF d) as [s|s| |s m e]; simpl in Hs; try tauto; subst s;
    try discriminate Hlt; split; try exact I; reflexivity.
Qed.

Lemma matched_velocity_ge0 previous time_delta p v :
  is_nan time_delta = false ->
  Spec.matched_velocity row_norm previous time_delta p = Some v -> ge0 v.
Proof.
  intros Hn. unfold Spec.matched_velocity.
  destruct (Spec.nearest_distance row_norm previous p) as [d|] eqn:Ed; [|discriminate].
  destruct (d <? 200)%float eqn:Hlt; [|discriminate]. intros [= <-].
  destruct (below_200_finite d (nearest_distance_sign _ _ _ Ed) Hlt)
    as [Hge Hfin].
  apply div_ge0; [exact Hge|exact Hfin|apply max2_epsilon_pos, Hn].
Qed.

(** *** Positive integers convert to positive doubles *)

Lemma shr_1_div mrs :
  0 <= shr_m mrs -> shr_m (shr_1 mrs) = shr_m mrs / 2.
Proof.
  destruct mrs as [m r s]; simpl. intros Hm.
  destruct m as [|p|p]; [reflexivity| |lia].
  destruct p as [p|p|]; simpl shr_m.
  - apply (Z.div_unique _ _ _ 1); lia.
  - apply (Z.div_unique _ _ _ 0); lia.
  - reflexivity.
Qed.

Lemma iter_pos_shr_1_div p : forall mrs,
  0 <= shr_m mrs ->
  shr_m (SpecFloat.iter_pos shr_1 p mrs) = shr_m mrs / 2 ^ Z.pos p.
Proof.
  induction p as [p IH|p IH|]; intros mrs Hm; simpl SpecFloat.iter_pos.
  - pose proof (shr_1_nonneg mrs Hm) as H1.
    pose proof (iter_pos_shr_1_nonneg p _ H1) as H2.
    assert (0 < 2 ^ Z.pos p) as Hp by (apply Z.pow_pos_nonneg; lia).
    rewrite IH, IH, shr_1_div by assumption.
    rewrite !Z.div_div by lia.
    f_equal. replace (Z.pos p~1) with (1 + Z.pos p + Z.pos p) by lia.
    rewrite !Z.pow_add_r by lia. change (2 ^ 1) with 2. ring.
  - pose proof (iter_pos_shr_1_nonneg p _ Hm) as H2.
    assert (0 < 2 ^ Z.pos p) as Hp by (apply Z.pow_pos_nonneg; lia).
    rewrite IH, IH by assumption.
    rewrite !Z.div_div by lia.
    f_equal. replace (Z.pos p~0) with (Z.pos p + Z.pos p) by lia.
    rewrite !Z.pow_add_r by lia. ring.
  - apply shr_1_div, Hm.
Qed.

Lemma shr_fexp_pos m e l :
  0 < m -> -1074 <= e -> 0 < shr_m (shr_fexp prec emax m e l).1.
Proof.
  intros Hm He. unfold shr_fexp, shr.
  destruct (fexp prec emax (Zdigits2 m + e) - e) as [|p|p] eqn:E; simpl;
    rewrite ?shr_record_of_loc_m; try lia.
  rewrite iter_pos_shr_1_div by (rewrite shr_record_of_loc_m; lia).
  rewrite shr_record_of_loc_m.
  destruct m as [|q|q]; try lia. simpl Zdigits2 in E.
  pose proof (digits2_pos_lower q) as Hq.
  assert (Z.pos p = Z.pos (digits2_pos q) - 53) as Hp
    by (unfold fexp, SpecFloat.emin, prec, emax in E; lia).
  assert (0 < 2 ^ Z.pos p) as Hpow by (apply Z.pow_pos_nonneg; lia).
  assert (2 ^ Z.pos p <= 2 ^ (Z.pos (digits2_pos q) - 1)) as Hle
    by (apply Z.pow_le_mono_r; lia).
  apply Z.lt_le_trans with 1; [lia|].
  apply Z.div_le_lower_bound; lia.
Qed.

Lemma round_nearest_even_ge m l : m <= round_nearest_even m l.
Proof.
  destruct l as [|[]]; simpl; try lia. destruct (Z.even m); lia.
Qed.

(** Rounding a positive mantissa above the subnormal exponent never gives
    zero. *)
Lemma binary_round_aux_nonzero s mx ex lx s' :
  0 < mx -> -1074 <= ex ->
  binary_round_aux prec emax s mx ex lx <> S754_zero s'.
Proof.
  intros Hm He. unfold binary_round_aux.
  pose proof (shr_fexp_pos mx ex lx Hm He) as H1.
  pose proof (shr_fexp_exp mx ex lx) as E1.
  destruct (shr_fexp prec emax mx ex lx) as [mrs' e']. simpl in H1, E1.
  set (m2 := round_nearest_even (shr_m mrs') (loc_of_shr_record mrs')).
  assert (0 < m2) as Hm2.
  { pose proof (round_nearest_even_ge (shr_m mrs') (loc_of_shr_record mrs')).
    subst m2. lia. }
  pose proof (shr_fexp_pos m2 e' loc_Exact Hm2 ltac:(lia)) as H2.
  destruct (shr_fexp prec emax m2 e' loc_Exact) as [mrs'' e'']. simpl in H2.
  destruct (shr_m mrs'') as [|p|p]; try lia.
  cbv beta iota. destruct (e'' <=? emax - prec); discriminate.
Qed.

Lemma binary_normalize_nonzero p s' :
  binary_normalize prec emax (Z.pos p) 0 false <> S754_zero s'.
Proof.
  simpl. unfold binary_round, shl_align.
  destruct (fexp prec emax (Z.pos (digits2_pos p) + 0) - 0) as [|d|d] eqn:E;
    apply binary_round_aux_nonzero; try lia.
  unfold fexp, SpecFloat.emin, prec, emax. lia.
Qed.

(** [float(z)] is a positive finite double for [0 < z < 2^63]. *)
Lemma float_of_int_pos_finite z :
  0 < z < 2 ^ 63 -> pos_finite_sf (Prim2SF (Py.float_of_int z)).
Proof.
  intros Hz. rewrite float_of_int_spec by lia.
  pose proof (binary_normalize_finite z ltac:(lia)) as Hf.
  pose proof (binary_normalize_sign z 0 ltac:(lia)) as Hs.
  destruct z as [|p|p]; try lia.
  pose proof (binary_normalize_nonzero p) as Hn.
  destruct (binary_normalize prec emax (Z.pos p) 0 false) as [s|s| |s m e];
    simpl in Hf, Hs; try tauto.
  - exfalso. apply (Hn s). reflexivity.
  - subst s. exact I.
Qed.

(** The mean of doubles that are not negative is not negative. *)
Lemma np_mean_ge0 vs :
  vs <> [] -> Z.of_nat (length vs) < 2 ^ 63 -> Forall ge0 vs ->
  ge0 (Py.np_mean vs).
Proof.
  intros Hne Hlen Hvs. unfold Py.np_mean.
  assert (0 < Z.of_nat (length vs) < 2 ^ 63) as Hn.
  { destruct vs; [congruence|]. cbn [length] in *. lia. }
  pose proof (float_of_int_pos_finite _ Hn) as Hp.
  destruct (Prim2SF (Py.float_of_int (Z.of_nat (length vs))))
    as [s|s| |s m e] eqn:E; simpl in Hp; try tauto.
  destruct s; [tauto|].
  apply (div_pos_ge0 _ _ m e E).
  apply np_sum_closed; [exact add_ge0|exact I|exact Hvs].
Qed.

Lemma round2_ge0 t : ge0 t -> ge0 (Py.round2 t).
Proof.
  unfold ge0, Py.round2. intros Ht.
  destruct (Prim2SF t) as [s|s| |s m e] eqn:E; rewrite ?E; try exact Ht.
  simpl in Ht. subst s. cbv zeta.
  apply has_sign_ge0, SF2Prim_sign.
  destruct (Py.round_half_even_scaled m e) as [|p|p]; try reflexivity.
  apply (SFdiv_finite_sign false p 0 false 100 0).
Qed.

Lemma omap_matched_velocity previous time_delta :
  is_nan time_delta = false ->
  forall current : list point,
  Forall ge0 (omap (Spec.matched_velocity row_norm previous time_delta) current) /\
  (length (omap (Spec.matched_velocity row_norm previous time_delta) current)
   <= length current)%nat.
Proof.
  intros Hn. induction current as [|c rest [IH1 IH2]].
  - split; [constructor|reflexivity].
  - cbn [omap list_omap].
    destruct (Spec.matched_velocity row_norm previous time_delta c) as [v|] eqn:Ev.
    + split; [|simpl; lia].
      constructor; [|exact IH1].
      apply (matched_velocity_ge0 _ _ _ _ Hn Ev).
    + split; [exact IH1|simpl; lia].
Qed.

Lemma movement_ge0 previous current time_delta :
  is_nan time_delta = false -> Z.of_nat (length current) < 2 ^ 63 ->
  ge0 (Spec.movement row_norm previous current time_delta).
Proof.
  intros Hn Hlen. unfold Spec.movement.
  destruct previous as [previous|]; [|exact I].
  destruct current as [|c rest]; [exact I|].
  destruct (omap_matched_velocity previous time_delta Hn (c :: rest))
    as [Hge Hle].
  destruct (omap _ (c :: rest)) as [|v vs] eqn:E; [exact I|].
  apply np_mean_ge0; [discriminate| |exact Hge]. lia.
Qed.

(** For a time delta that is not NaN, the motion estimator returns a
    velocity that is not negative (and so not NaN), for every analyzer state
    and every position list. *)
Theorem velocity_never_negative self positions time_delta :
  is_nan time_delta = false ->
  Z.of_nat (length positions) < 2 ^ 63 ->
  exists v,
    calculate_movement self positions time_delta
    = Ok (v, set_previous_positions self positions) /\
    (0 <=? v)%float = true.
Proof.
  intros Hn Hlen. eexists. split; [apply calculate_movement_spec|].
  apply leb0_ge0, movement_ge0; assumption.
Qed.

Lemma velocity_never_negative_witness :
  exists v,
    calculate_movement (set_previous_positions (init (720, 1280)) [(100, 100)])
      [(103, 104)] 0.5
    = Ok (v, set_previous_positions
               (set_previous_positions (init (720, 1280)) [(100, 100)])
               [(103, 104)]) /\
    (0 <=? v)%float = true.
Proof.
  apply (velocity_never_negative
           (set_previous_positions (init (720, 1280)) [(100, 100)])
           [(103, 104)] 0.5); reflexivity.
Defined.

(** Every metrics record [analyze] returns for a time delta that is not NaN
    has its density score and its risk score in [0, 100] and a velocity that
    is not negative. *)
Theorem metrics_in_range `{Sklearn} self detections ts time_delta m self' :
  analyze self detections ts time_delta = Ok (m, self') ->
  is_nan time_delta = false ->
  Z.of_nat (length detections) < 2 ^ 63 ->
  in_0_100 (density_score m) /\
  in_0_100 (risk_score m) /\
  (0 <=? avg_velocity m)%float = true.
Proof.
  intros Ha Hn Hlen. apply analyze_Ok_inv in Ha.
  destruct Ha as (_ & _ & _ & _ & Hd & _ & _ & Hv & Hr).
  assert (Z.of_nat (length (centers_of detections)) < 2 ^ 63) as Hlen'
    by (unfold centers_of; rewrite length_map; exact Hlen).
  pose proof (movement_ge0 (previous_positions self) (centers_of detections)
                time_delta Hn Hlen') as Hge.
  pose proof (density_score_range self (Z.of_nat (length detections))
                ltac:(lia)) as Hds.
  rewrite <- Hd in Hds.
  split; [exact Hds|]. split.
  - pose proof (risk_score_range (Z.of_nat (length detections))
                  (density_score m) (high_density_zones m) _
                  ltac:(lia) (proj1 (leb0_ge0 _) (proj1 Hds)) Hge) as Hs.
    rewrite <- Hr in Hs. exact Hs.
  - rewrite Hv. apply leb0_ge0, round2_ge0, Hge.
Qed.

Lemma metrics_in_range_witness :
  exists m self',
    @analyze all_noise
      (set_previous_positions (init (720, 1280)) [(100, 100)])
      [low_frame_detection] "t" 0.5 = Ok (m, self') /\
    in_0_100 (density_score m) /\
    in_0_100 (risk_score m) /\
    (0 <=? avg_velocity m)%float = true.
Proof.
  eexists _, _. split; [vm_compute; reflexivity|].
  apply (@metrics_in_range all_noise
           (set_previous_positions (init (720, 1280)) [(100, 100)])
           [low_frame_detection] "t" 0.5 _ _ eq_refl); reflexivity.
Defined.

(** *** The motion estimator always returns *)

(** [calculate_movement] never raises, whatever the analyzer state, the
    positions and the time delta are: the minimum of an empty distance array,
    a ValueError of numpy, is never taken.  The positions of the call are
    stored in every case. *)
Theorem motion_estimator_never_raises self positions time_delta :
  exists v self',
    calculate_movement self positions time_delta = Ok (v, self') /\
    previous_positions self' = Some positions.
Proof.
  eexists _, _. split; [apply calculate_movement_spec|reflexivity].
Qed.

(** *** A crowd that stands still *)

Lemma row_norm_self p : row_norm p p = 0%float.
Proof.
  unfold row_norm. cbv zeta. rewrite !Z.sub_diag. reflexivity.
Qed.

Lemma nearest_distance_member previous p :
  p ∈ previous -> Spec.nearest_distance row_norm previous p = Some 0%float.
Proof.
  intros Hp.
  destruct (Spec.nearest_distance row_norm previous p) as [d|] eqn:E.
  - pose proof (nearest_distance_sign _ _ _ E) as Hs.
    apply nearest_distance_nearest in E as [_ Hmin].
    specialize (Hmin p Hp). rewrite row_norm_self, ltb_spec in Hmin.
    change (Prim2SF 0) with (S754_zero false) in Hmin.
    f_equal. apply Prim2SF_inj.
    change (Prim2SF 0) with (S754_zero false).
    destruct (Prim2SF d) as [s|s| |s m e]; simpl in Hs; try tauto; subst s;
      try discriminate Hmin; reflexivity.
  - unfold Spec.nearest_distance in E.
    destruct previous as [|q qs]; [|discriminate E].
    apply elem_of_nil in Hp. destruct Hp.
Qed.

Lemma matched_velocity_member previous time_delta p :
  is_nan time_delta = false -> p ∈ previous ->
  Spec.matched_velocity row_norm previous time_delta p = Some 0%float.
Proof.
  intros Hn Hp. unfold Spec.matched_velocity.
  rewrite (nearest_distance_member _ _ Hp).
  change (0 <? 200)%float with true. cbv iota.
  rewrite zero_div_pos by (apply max2_epsilon_pos, Hn). reflexivity.
Qed.

Lemma omap_matched_velocity_members previous time_delta :
  is_nan time_delta = false ->
  forall current : list point,
  current ⊆ previous ->
  omap (Spec.matched_velocity row_norm previous time_delta) current
  = replicate (length current) 0%float.
Proof.
  intros Hn. induction current as [|c rest IH]; intros Hsub; [reflexivity|].
  cbn [omap list_omap length replicate].
  rewrite (matched_velocity_member _ _ _ Hn)
    by (apply Hsub; left).
  f_equal. apply IH. intros x Hx. apply Hsub. right. exact Hx.
Qed.

Lemma np_sum_zeros n : Py.np_sum (replicate n 0%float) = 0%float.
Proof.
  apply (np_sum_closed (fun x => x = 0%float)).
  - intros x y -> ->. reflexivity.
  - reflexivity.
  - apply Forall_replicate. reflexivity.
Qed.

(** If every current position is one of the stored positions and the time
    delta is not NaN, the velocity is 0.0. *)
Theorem still_crowd_velocity_zero self previous positions time_delta :
  previous_positions self = Some previous ->
  positions ⊆ previous ->
  is_nan time_delta = false ->
  Z.of_nat (length positions) < 2 ^ 63 ->
  calculate_movement self positions time_delta
  = Ok (0%float, set_previous_positions self positions).
Proof.
  intros Hprev Hsub Hn Hlen. rewrite calculate_movement_spec. f_equal.
  f_equal. rewrite Hprev. unfold Spec.movement.
  destruct positions as [|c rest]; [reflexivity|].
  rewrite (omap_matched_velocity_members _ _ Hn _ Hsub).
  cbn [length replicate]. unfold Py.np_mean.
  rewrite <- (replicate_S (length rest) 0%float), np_sum_zeros.
  apply zero_div_pos.
  rewrite length_replicate.
  pose proof (float_of_int_pos_finite (Z.of_nat (S (length rest)))
                ltac:(cbn [length] in Hlen; lia)) as Hp.
  destruct (Prim2SF _) as [s|s| |[] m e]; simpl in Hp |- *; tauto.
Qed.

Lemma still_crowd_velocity_zero_witness :
  calculate_movement
    (set_previous_positions (init (720, 1280)) [(100, 100); (200, 200)])
    [(200, 200)] 0.33
  = Ok (0%float,
        set_previous_positions
          (set_previous_positions (init (720, 1280)) [(100, 100); (200, 200)])
          [(200, 200)]).
Proof.
  apply (still_crowd_velocity_zero _ [(100, 100); (200, 200)]);
    [reflexivity| |reflexivity|reflexivity].
  apply (bool_decide_unpack _). vm_compute. reflexivity.
Defined.

(** *** No cell is reported twice *)

Lemma NoDup_flat_map {A B} (f : A -> list B) (l : list A) :
  NoDup l ->
  (forall x, x ∈ l -> NoDup (f x)) ->
  (forall x1 x2 y, x1 ∈ l -> x2 ∈ l -> y ∈ f x1 -> y ∈ f x2 -> x1 = x2) ->
  NoDup (flat_map f l).
Proof.
  induction l as [|a l IH]; intros Hl Hf Hd; [constructor|].
  apply list.NoDup_cons in Hl as [Ha Hl]. cbn [flat_map].
  apply list.NoDup_app. split; [apply Hf; left|]. split.
  - intros y Hy Hy'. apply list_elem_of_In, in_flat_map in Hy'
      as (x & Hx & Hyx).
    apply list_elem_of_In in Hx, Hyx.
    assert (a = x) as -> by (apply (Hd a x y); [left|right| |]; assumption).
    exact (Ha Hx).
  - apply IH; [exact Hl| |].
    + intros x Hx. apply Hf. right. exact Hx.
    + intros x1 x2 y H1 H2. apply Hd; right; assumption.
Qed.

Lemma map_flat_map_comm {A B C} (g : B -> C) (f : A -> list B) l :
  map g (flat_map f l) = flat_map (fun x => map g (f x)) l.
Proof.
  induction l as [|a l IH]; [reflexivity|].
  cbn [flat_map]. rewrite map_app, IH. reflexivity.
Qed.

Lemma zone_of_cell_position grid_size grid_counts i j p :
  p ∈ map grid_position (zone_of_cell grid_size grid_counts i j) ->
  p = (Z.of_nat j, Z.of_nat i).
Proof.
  unfold zone_of_cell. cbv zeta.
  destruct (Config.HIGH_DENSITY_THRESHOLD <=? _); cbn [map grid_position].
  - intros Hp. apply list_elem_of_singleton in Hp. exact Hp.
  - intros Hp. apply elem_of_nil in Hp. destruct Hp.
Qed.

Lemma zone_of_cell_NoDup grid_size grid_counts i j :
  NoDup (map grid_position (zone_of_cell grid_size grid_counts i j)).
Proof.
  unfold zone_of_cell. cbv zeta.
  destruct (Config.HIGH_DENSITY_THRESHOLD <=? _); cbn [map];
    [apply NoDup_singleton|constructor].
Qed.

Lemma zone_row_position grid_size grid_counts i w p :
  p ∈ map grid_position
        (flat_map (zone_of_cell grid_size grid_counts i) (seq 0 w)) ->
  p.2 = Z.of_nat i.
Proof.
  rewrite map_flat_map_comm. intros Hp.
  apply list_elem_of_In, in_flat_map in Hp as (j & _ & Hp).
  apply list_elem_of_In, zone_of_cell_position in Hp. subst p. reflexivity.
Qed.

Lemma zone_positions_NoDup grid_size grid_counts h w :
  NoDup (map grid_position
           (flat_map
              (fun i => flat_map (zone_of_cell grid_size grid_counts i)
                          (seq 0 w))
              (seq 0 h))).
Proof.
  rewrite map_flat_map_comm. apply NoDup_flat_map.
  - apply NoDup_seq.
  - intros i _. rewrite map_flat_map_comm. apply NoDup_flat_map.
    + apply NoDup_seq.
    + intros j _. apply zone_of_cell_NoDup.
    + intros j1 j2 p _ _ H1 H2.
      apply zone_of_cell_position in H1, H2. subst p.
      injection H2 as H2. apply Nat2Z.inj. exact H2.
  - intros i1 i2 p _ _ H1 H2.
    apply zone_row_position in H1, H2. apply Nat2Z.inj. congruence.
Qed.

(** *** Every zone carries the count of its cell *)

Lemma get_alter cols g i' j' i j :
  grid_shape (length g) cols g -> (i' < length g)%nat -> (j' < cols)%nat ->
  Np.get (alter (alter (Z.add 1) j') i' g) i j
  = Np.get g i j + (if (i' =? i)%nat && (j' =? j)%nat then 1 else 0).
Proof.
  intros [_ Hg] Hi Hj. unfold Np.get.
  destruct (decide (i' = i)) as [->|Hne].
  - rewrite list_lookup_alter, decide_True, Nat.eqb_refl by reflexivity.
    destruct (g !! i) as [r|] eqn:Er;
      [|apply lookup_ge_None in Er; lia].
    assert (length r = cols) as Hr.
    { apply list_elem_of_lookup_2, list_elem_of_In in Er.
      rewrite List.Forall_forall in Hg. apply (Hg r Er). }
    cbn [fmap option_fmap option_map mbind option_bind].
    destruct (decide (j' = j)) as [->|Hnj].
    + rewrite list_lookup_alter, decide_True, Nat.eqb_refl by reflexivity.
      destruct (r !! j) as [c|] eqn:Ec;
        [|apply lookup_ge_None in Ec; lia].
      cbn. lia.
    + rewrite list_lookup_alter_ne by exact Hnj.
      apply Nat.eqb_neq in Hnj. rewrite Hnj. cbn. lia.
  - rewrite list_lookup_alter_ne by exact Hne.
    apply Nat.eqb_neq in Hne. rewrite Hne. cbn. lia.
Qed.

Lemma incr_cell rows cols g y x g' :
  grid_shape (Z.to_nat rows) (Z.to_nat cols) g ->
  Np.incr rows cols g y x = Ok g' ->
  exists i' j',
    Np.index rows y = Ok i' /\ Np.index cols x = Ok j' /\
    forall i j,
      Np.get g' i j
      = Np.get g i j + (if (i' =? i)%nat && (j' =? j)%nat then 1 else 0).
Proof.
  intros Hg. unfold Np.incr.
  destruct (Np.index rows y) as [i'|e] eqn:Ei; [|discriminate].
  destruct (Np.index cols x) as [j'|e] eqn:Ej; [|discriminate].
  cbv beta iota delta [mbind result_bind]. intros [= <-].
  exists i', j'. split; [reflexivity|]. split; [reflexivity|].
  intros i j. apply index_Ok in Ei, Ej.
  destruct Hg as [Hl Hg]. rewrite <- Hl in Ei.
  apply (get_alter (Z.to_nat cols));
    [split; [reflexivity|exact Hg]|exact Ei|exact Ej].
Qed.

Lemma tally_cell gs rows cols centers : forall g g',
  grid_shape (Z.to_nat rows) (Z.to_nat cols) g ->
  tally gs rows cols g centers = Ok g' ->
  forall i j,
    Np.get g' i j = Np.get g i j + count_in_cell gs rows cols i j centers.
Proof.
  unfold count_in_cell.
  induction centers as [|[x y] rest IH]; intros g g' Hg; cbn [tally].
  - intros [= <-] i j. cbn. lia.
  - cbn [List.filter]. unfold in_cell at 1, counted_cell.
    destruct (cell_of x gs) as [cx|e]; [|discriminate].
    destruct (cell_of y gs) as [cy|e]; [|discriminate].
    cbv beta iota delta [mbind result_bind].
    destruct (Np.incr _ _ _ _ _) as [g1|e] eqn:E; [|discriminate].
    intros Ht i j.
    destruct (incr_cell _ _ _ _ _ _ Hg E) as (i' & j' & -> & -> & Hget).
    destruct (incr_spec _ _ _ _ _ _ Hg E) as [Hg1 _].
    rewrite (IH _ _ Hg1 Ht), Hget.
    destruct ((i' =? i)%nat && (j' =? j)%nat); cbn [length]; lia.
Qed.

Lemma zeros_get rows cols g i j : Np.zeros rows cols = Ok g -> Np.get g i j = 0.
Proof.
  unfold Np.zeros. destruct (_ || _); [discriminate|]. intros [= <-].
  unfold Np.get.
  destruct (replicate (Z.to_nat rows) _ !! i) as [r|] eqn:Er; [|reflexivity].
  apply lookup_replicate in Er as [-> _]. cbn.
  destruct (replicate (Z.to_nat cols) 0 !! j) as [c|] eqn:Ec; [|reflexivity].
  apply lookup_replicate in Ec as [-> _]. reflexivity.
Qed.

Lemma zone_of_cell_elem gs g i j z :
  z ∈ zone_of_cell gs g i j <->
  Config.HIGH_DENSITY_THRESHOLD <= Np.get g i j /\
  zone_of_cell gs g i j = [z].
Proof.
  unfold zone_of_cell. cbv zeta.
  destruct (Z.leb_spec Config.HIGH_DENSITY_THRESHOLD (Np.get g i j)) as [H|H].
  - rewrite list_elem_of_singleton. split.
    + intros ->. split; [exact H|reflexivity].
    + intros [_ [= <-]]. reflexivity.
  - split; [intros Hz; apply elem_of_nil in Hz; destruct Hz|].
    intros [Hc _]. lia.
Qed.

Lemma zones_elem gs g h w z :
  z ∈ flat_map (fun i => flat_map (zone_of_cell gs g i) (seq 0 w)) (seq 0 h)
  <-> exists i j, (i < h)%nat /\ (j < w)%nat /\ z ∈ zone_of_cell gs g i j.
Proof.
  rewrite list_elem_of_In, in_flat_map. split.
  - intros (i & Hi & Hz). apply in_flat_map in Hz as (j & Hj & Hz).
    apply in_seq in Hi, Hj. exists i, j.
    split; [lia|]. split; [lia|]. apply list_elem_of_In, Hz.
  - intros (i & j & Hi & Hj & Hz). exists i. split; [apply in_seq; lia|].
    apply in_flat_map. exists j. split; [apply in_seq; lia|].
    apply list_elem_of_In, Hz.
Qed.

(** The zones of one call are exactly the cells of the grid in which at
    least [HIGH_DENSITY_THRESHOLD] centers were counted: every zone names a
    cell of the grid and carries the number of centers counted in that cell,
    every cell that reaches the threshold has its zone, and no cell is
    reported twice. *)
Theorem zones_report_cell_counts self centers zones :
  detect_high_density_zones self centers = Ok zones ->
  let gs := grid_size self in
  let h := frame_height self / gs in
  let w := frame_width self / gs in
  NoDup (map grid_position zones) /\
  (forall z, z ∈ zones ->
     exists i j,
       (i < Z.to_nat h)%nat /\ (j < Z.to_nat w)%nat /\
       grid_position z = (Z.of_nat j, Z.of_nat i) /\
       person_count z = count_in_cell gs h w i j centers /\
       Config.HIGH_DENSITY_THRESHOLD <= person_count z) /\
  (forall i j,
     (i < Z.to_nat h)%nat -> (j < Z.to_nat w)%nat ->
     Config.HIGH_DENSITY_THRESHOLD <= count_in_cell gs h w i j centers ->
     exists z, z ∈ zones /\ grid_position z = (Z.of_nat j, Z.of_nat i)).
Proof.
  unfold detect_high_density_zones, floordiv.
  destruct centers as [|c rest].
  { intros [= <-]. cbn zeta. split; [constructor|]. split.
    - intros z Hz. apply elem_of_nil in Hz. destruct Hz.
    - intros i j _ _ Hc. unfold count_in_cell, Config.HIGH_DENSITY_THRESHOLD
        in Hc. cbn in Hc. lia. }
  cbn [length Nat.eqb].
  destruct (grid_size self =? 0); [discriminate|].
  cbv beta iota delta [mbind result_bind].
  destruct (Np.zeros _ _) as [g0|e] eqn:E0; [|discriminate].
  destruct (tally _ _ _ _ _) as [g|e] eqn:Et; [|discriminate].
  intros [= <-]. cbn zeta.
  destruct (zeros_spec _ _ _ E0) as [Hg0 _].
  pose proof (tally_cell _ _ _ _ _ _ Hg0 Et) as Hget.
  assert (forall i j,
            Np.get g i j
            = count_in_cell (grid_size self)
                (frame_height self / grid_size self)
                (frame_width self / grid_size self) i j (c :: rest)) as Hcount.
  { intros i j. rewrite Hget, (zeros_get _ _ _ _ _ E0). lia. }
  split; [apply zone_positions_NoDup|]. split.
  - intros z Hz. apply zones_elem in Hz as (i & j & Hi & Hj & Hz).
    apply zone_of_cell_elem in Hz as [Hc Hz].
    exists i, j. split; [exact Hi|]. split; [exact Hj|].
    unfold zone_of_cell in Hz. cbv zeta in Hz.
    destruct (Config.HIGH_DENSITY_THRESHOLD <=? _); [|discriminate Hz].
    injection Hz as <-. cbn [grid_position person_count].
    rewrite <- Hcount. split; [reflexivity|]. split; [reflexivity|exact Hc].
  - intros i j Hi Hj Hc. rewrite <- Hcount in Hc.
    destruct (zone_of_cell (grid_size self) g i j) as [|z l] eqn:Ez.
    + unfold zone_of_cell in Ez. cbv zeta in Ez.
      destruct (Z.leb_spec Config.HIGH_DENSITY_THRESHOLD (Np.get g i j));
        [discriminate Ez|lia].
    + assert (z ∈ zone_of_cell (grid_size self) g i j) as Hz
        by (rewrite Ez; left).
      exists z. split.
      * apply zones_elem. exists i, j. auto.
      * apply (zone_of_cell_position (grid_size self) g i j).
        apply list_elem_of_fmap. exists z. split; [reflexivity|exact Hz].
Qed.

Lemma zones_report_cell_counts_witness :
  NoDup (map grid_position two_zones) /\
  (forall z, z ∈ two_zones ->
     exists i j,
       (i < 14)%nat /\ (j < 25)%nat /\
       grid_position z = (Z.of_nat j, Z.of_nat i) /\
       person_count z = count_in_cell 50 14 25 i j two_groups /\
       5 <= person_count z).
Proof.
  pose proof (zones_report_cell_counts (init (720, 1280)) two_groups
                two_zones) as H.
  destruct H as (Hn & Hz & _); [vm_compute; reflexivity|].
  split; [exact Hn|exact Hz].
Defined.
